(** * Productive numbers: split analysis and deterministic Miller-Rabin

    A shallow embedding of [scripts/analyze_all_splits.py].  Python integers
    are unbounded, so every integer of the script is a [Z]; [//] and [%] are
    floor division and its remainder, which is what [Z.div] and [Z.modulo]
    compute, except that Python raises [ZeroDivisionError] on a zero divisor.
    [while] loops may run forever, so a computation takes a bound on the number
    of iterations of each loop it enters and answers [Timeout] when the bound
    is reached; a result "is returned" when every large enough bound gives it. *)

From Stdlib Require Import ZArith List Lia Bool String Ascii Znumtheory.
From Stdlib Require DecimalString DecimalPos DecimalFacts DecimalZ ZmodInv.
Import ListNotations.

Local Open Scope Z_scope.

(** ** Computations *)

(** The exception the integer operations of the script can raise.  Python
    integers never overflow, so there is no other. *)
Inductive exn : Type :=
| ZeroDivisionError.

Inductive res (A : Type) : Type :=
| Val (a : A)
| Exn (e : exn)
| Timeout.

Arguments Val {A} a.
Arguments Exn {A} e.
Arguments Timeout {A}.

(** The arguments [(base, exp, mod)] of one call of [mod_pow]. *)
Definition call : Type := Z * Z * Z.

(** What a run leaves behind: its outcome and the calls of [mod_pow] it made,
    oldest first. *)
Record run (A : Type) : Type := Run { out : res A; log : list call }.

Arguments Run {A} out log.
Arguments out {A} r.
Arguments log {A} r.

Definition M (A : Type) : Type := nat -> run A.

Definition ret {A : Type} (a : A) : M A := fun _ => Run (Val a) [].

Definition raise {A : Type} (e : exn) : M A := fun _ => Run (Exn e) [].

Definition bind {A B : Type} (c : M A) (k : A -> M B) : M B :=
  fun fuel =>
    match c fuel with
    | Run (Val a) l => let r := k a fuel in Run (out r) (l ++ log r)
    | Run (Exn e) l => Run (Exn e) l
    | Run Timeout l => Run Timeout l
    end.

Definition called (c : call) : M unit := fun _ => Run (Val tt) [c].

Notation "x <- c1 ;; c2" := (bind c1 (fun x => c2))
  (at level 61, c1 at next level, right associativity).
Notation "c1 ;;; c2" := (bind c1 (fun _ => c2))
  (at level 61, right associativity).

(** [while cond: body] on the loop variables [s]; [gas] bounds the iterations. *)
Fixpoint while_iter {S : Type} (cond : S -> bool) (body : S -> M S)
    (gas : nat) (s : S) : M S :=
  match gas with
  | O => fun _ => Run Timeout []
  | Datatypes.S g =>
      if cond s then s' <- body s ;; while_iter cond body g s' else ret s
  end.

Definition while {S : Type} (cond : S -> bool) (body : S -> M S) (s : S) : M S :=
  fun fuel => while_iter cond body fuel s fuel.

(** [for x in xs: body], threading the variables the body assigns. *)
Fixpoint for_in {A S : Type} (xs : list A) (body : A -> S -> M S) (s : S) : M S :=
  match xs with
  | [] => ret s
  | x :: xs' => s' <- body x s ;; for_in xs' body s'
  end.

(** Python's [a % b] and [a // b].  Where the divisor is a literal ([% 2],
    [// 2], [// 10]) the script cannot raise and [mod] and [/] are written. *)
Definition py_mod (a b : Z) : M Z :=
  if b =? 0 then raise ZeroDivisionError else ret (a mod b).

Definition py_floordiv (a b : Z) : M Z :=
  if b =? 0 then raise ZeroDivisionError else ret (a / b).

(** The builtins [range(lo, hi)], [len] of a string and [str] of an [int]:
    the decimal digits, after a [-] for a negative number, as the Standard
    Library prints a [Z]. *)
Definition range (lo hi : Z) : list Z :=
  map (fun i => lo + Z.of_nat i) (seq 0 (Z.to_nat (hi - lo))).

Definition len (s : string) : Z := Z.of_nat (String.length s).

Definition str (n : Z) : string :=
  DecimalString.NilZero.string_of_int (Z.to_int n).

(** ** The script *)

(** Line 16. *)
Definition WITNESSES : list Z := [2; 3; 5; 7; 11; 13; 17; 19; 23; 29; 31; 37].

(** Loop of [mod_pow] on [(result, base, exp)]. *)
Definition mod_pow_body (mod_ : Z) (s : Z * Z * Z) : M (Z * Z * Z) :=
  let '(result, base, exp) := s in
  result <- (if exp mod 2 =? 1 then py_mod (result * base) mod_ else ret result) ;;
  let exp := Z.shiftr exp 1 in
  base <- py_mod (base * base) mod_ ;;
  ret (result, base, exp).

(** Lines 18-29.  The call is logged on entry. *)
Definition mod_pow (base exp mod_ : Z) : M Z :=
  called (base, exp, mod_) ;;;
  if mod_ =? 1 then ret 0
  else
    let result := 1 in
    base <- py_mod base mod_ ;;
    s <- while (fun '(_, _, exp) => exp >? 0) (mod_pow_body mod_) (result, base, exp) ;;
    let '(result, _, _) := s in
    ret result.

(** Lines 44-48 of [is_prime]: write [d] as [2^r * d'] on [(d, r)]. *)
Definition is_prime_decompose (d : Z) : M (Z * Z) :=
  while (fun '(d, _) => d mod 2 =? 0)
        (fun '(d, r) => ret (d / 2, r + 1))
        (d, 0).

(** Lines 60-64: the squarings of one witness; the value is [composite]. *)
Fixpoint is_prime_squarings (iters : nat) (x n : Z) : M bool :=
  match iters with
  | O => ret true
  | Datatypes.S i =>
      x <- py_mod (x * x) n ;;
      if x =? n - 1 then ret false else is_prime_squarings i x n
  end.

(** Lines 51-69: the loop over the witnesses, with its early [return False]. *)
Fixpoint is_prime_witnesses (ws : list Z) (n d r : Z) : M bool :=
  match ws with
  | [] => ret true
  | a :: ws' =>
      if a >=? n then is_prime_witnesses ws' n d r
      else
        x <- mod_pow a d n ;;
        if (x =? 1) || (x =? n - 1) then is_prime_witnesses ws' n d r
        else
          composite <- is_prime_squarings (Z.to_nat (r - 1)) x n ;;
          if composite then ret false else is_prime_witnesses ws' n d r
  end.

(** Lines 31-69. *)
Definition is_prime (n : Z) : M bool :=
  if n <? 2 then ret false
  else if existsb (Z.eqb n) [2; 3; 5; 7; 11; 13; 17; 19; 23; 29; 31; 37] then ret true
  else if n mod 2 =? 0 then ret false
  else
    dr <- is_prime_decompose (n - 1) ;;
    let '(d, r) := dr in
    is_prime_witnesses WITNESSES n d r.

(** Lines 71-79, the loop on [(n, digits)]. *)
Definition count_digits (n : Z) : M Z :=
  if n =? 0 then ret 1
  else
    s <- while (fun '(n, _) => n >? 0)
               (fun '(n, digits) => ret (n / 10, digits + 1))
               (n, 0) ;;
    let '(_, digits) := s in
    ret digits.

(** One row [(n, split_pos, a, b, product, is_prime, digits)]. *)
Definition row : Type := Z * Z * Z * Z * Z * bool * Z.

(** The body of the loop of [analyze_number]; [k] comes from
    [range(1, num_digits)], so [10 ** k] is the integer [10 ^ k]. *)
Definition analyze_split (n k : Z) (results : list row) : M (list row) :=
  let divisor := 10 ^ k in
  a <- py_floordiv n divisor ;;
  b <- py_mod n divisor ;;
  let product := a * b + 1 in
  is_product_prime <- is_prime product ;;
  product_digits <- count_digits product ;;
  ret (results ++ [(n, k, a, b, product, is_product_prime, product_digits)]).

(** Lines 85-109. *)
Definition analyze_number (n : Z) : M (list row) :=
  let results := [] in
  let s := str n in
  let num_digits := len s in
  for_in (range 1 num_digits) (analyze_split n) results.

(** ** The processing and the CSV of [main]

    [main] reads [found.txt], analyses every number of it and writes
    [splits_analysis.csv].  What it does between the reading and the summary
    is embedded here on the list [numbers] it has read: the loop of lines
    131-143 with what it prints, and the text written by lines 149-155, as the
    bytes of its UTF-8 encoding. *)

Definition LF : string := String "010" EmptyString.
Definition CR : string := String "013" EmptyString.

(** Line 143, the text of one progress report. *)
Definition main_progress (percent processed total_numbers : Z) : string :=
  ("🚀 Procesando splits (" ++ str percent ++ "%) - " ++ str processed ++ "/"
   ++ str total_numbers ++ " números" ++ CR)%string.

(** Lines 136-143, the body of the loop over [numbers], on
    [(all_results, processed, printed)]; [printed] holds the texts written to
    the console, oldest first. *)
Definition main_loop_body (total_numbers n : Z)
    (s : list row * Z * list string) : M (list row * Z * list string) :=
  let '(all_results, processed, printed) := s in
  results <- analyze_number n ;;
  let all_results := all_results ++ results in
  let processed := processed + 1 in
  if (processed mod 10 =? 0) || (processed =? total_numbers) then
    percent <- py_floordiv (processed * 100) total_numbers ;;
    ret (all_results, processed,
         printed ++ [main_progress percent processed total_numbers])
  else ret (all_results, processed, printed).

(** Lines 127-145: [all_results] and the console output. *)
Definition main_process (numbers : list Z) : M (list row * list string) :=
  let total_numbers := Z.of_nat (List.length numbers) in
  let printed :=
    [("📥 Cargados " ++ str total_numbers ++ " números de found.txt" ++ LF)%string;
     ("🚀 Procesando splits (0%)" ++ CR)%string] in
  let all_results := [] in
  let processed := 0 in
  s <- for_in numbers (main_loop_body total_numbers)
         (all_results, processed, printed) ;;
  let '(all_results, _, printed) := s in
  ret (all_results,
       printed ++ [("🚀 Procesando splits (100%) - " ++ str total_numbers ++ "/"
                    ++ str total_numbers ++ " números ✅" ++ LF)%string]).

(** Lines 153-155, one line of the file. *)
Definition main_csv_row (result : row) : string :=
  let '(n, k, a, b, product, is_prime_bool, digits) := result in
  let prime_str := (if is_prime_bool then "Sí" else "No")%string in
  (str n ++ ";" ++ str k ++ ";" ++ str a ++ ";" ++ str b ++ ";" ++ str product
   ++ ";" ++ prime_str ++ ";" ++ str digits ++ LF)%string.

(** Lines 149-155, the text of [splits_analysis.csv]: each [f.write] appends. *)
Definition main_csv (all_results : list row) : string :=
  fold_left (fun f result => (f ++ main_csv_row result)%string) all_results
    ("Número;SplitPos;A;B;A×B+1;Primo?;Digitos" ++ LF)%string.

(** The lines of the file after the header, one after the other. *)
Definition main_csv_body (all_results : list row) : string :=
  fold_right (fun result f => (main_csv_row result ++ f)%string) EmptyString
    all_results.

(** The number of occurrences of the character [c] in [s]. *)
Fixpoint count (c : ascii) (s : string) : nat :=
  match s with
  | EmptyString => 0
  | String x s' => (if Ascii.eqb x c then 1 else 0) + count c s'
  end.

(** ** What is stated about the script *)

(** [c] returns [v]: every large enough bound on the loops gives [Val v]. *)
Definition returns {A : Type} (c : M A) (v : A) : Prop :=
  exists f0 : nat, forall f : nat, (f0 <= f)%nat -> out (c f) = Val v.

(** Every call of [mod_pow] that [c] makes satisfies [P], whatever the bound. *)
Definition calls {A : Type} (P : call -> Prop) (c : M A) : Prop :=
  forall f : nat, Forall P (log (c f)).

(** A larger bound changes nothing once a value is there. *)
Definition mono {A : Type} (c : M A) : Prop :=
  forall (f f' : nat) (v : A),
    (f <= f')%nat -> out (c f) = Val v -> out (c f') = Val v.

(** Invariant of the loop of [mod_pow b0 e0 m]. *)
Definition mod_pow_inv (m b0 e0 : Z) (s : Z * Z * Z) : Prop :=
  let '(result, base, exp) := s in
  0 <= exp /\ 0 <= result < m /\ (result * base ^ exp) mod m = b0 ^ e0 mod m.

(** [c] digits are needed to write [n > 0]. *)
Definition digits_of (n c : Z) : Prop := 1 <= c /\ 10 ^ (c - 1) <= n < 10 ^ c.

(** Invariant of the loop of [count_digits n0]. *)
Definition count_digits_inv (n0 : Z) (s : Z * Z) : Prop :=
  let '(n, digits) := s in
  0 <= digits /\
  (n0 < 0 -> n = n0 /\ digits = 0) /\
  (0 < n0 -> n = n0 / 10 ^ digits /\ (digits = 0 \/ 10 ^ (digits - 1) <= n0)).

(** Invariant of the loop of [is_prime_decompose d0]. *)
Definition is_prime_decompose_inv (d0 : Z) (s : Z * Z) : Prop :=
  let '(d, r) := s in 0 < d /\ 0 <= r /\ d0 = 2 ^ r * d.

(** [n] passes the Miller-Rabin test to base [a]: with [n - 1 = 2^r * d] and
    [d] odd, [a^d] is [1] or some [a^(2^i * d)] with [i < r] is [-1], modulo
    [n]. *)
Definition strong_probable_prime (n a : Z) : Prop :=
  exists d r,
    0 < d /\ d mod 2 = 1 /\ 0 <= r /\ n - 1 = 2 ^ r * d /\
    (a ^ d mod n = 1 \/
     exists i, 0 <= i < r /\ a ^ (2 ^ i * d) mod n = n - 1).

(** The modulus of every call is [n] itself, odd and at least [9]. *)
Definition modulus_ok (n : Z) (c : call) : Prop :=
  let '(_, _, m) := c in m = n /\ 9 <= n /\ n mod 2 = 1.

(** The fields of a row. *)
Definition row_n (r : row) : Z := let '(n, _, _, _, _, _, _) := r in n.
Definition row_k (r : row) : Z := let '(_, k, _, _, _, _, _) := r in k.
Definition row_a (r : row) : Z := let '(_, _, a, _, _, _, _) := r in a.
Definition row_b (r : row) : Z := let '(_, _, _, b, _, _, _) := r in b.
Definition row_product (r : row) : Z := let '(_, _, _, _, p, _, _) := r in p.
Definition row_is_prime (r : row) : bool := let '(_, _, _, _, _, ip, _) := r in ip.
Definition row_digits (r : row) : Z := let '(_, _, _, _, _, _, dg) := r in dg.

(** What the loop body appends at split position [k]. *)
Definition split_row (n k : Z) (r : row) : Prop :=
  let a := n / 10 ^ k in
  let b := n mod 10 ^ k in
  let product := a * b + 1 in
  exists ip dg,
    returns (is_prime product) ip /\ returns (count_digits product) dg /\
    r = (n, k, a, b, product, ip, dg).



(** [c] raises [e]: every large enough bound on the loops gives [Exn e]. *)
Definition raises {A : Type} (c : M A) (e : exn) : Prop :=
  exists f0 : nat, forall f : nat, (f0 <= f)%nat -> out (c f) = Exn e.

(** Invariant of the loop of [mod_pow b0 e0 m] for a modulus of any sign and
    [e0 >= 1]: [result] is still the initial [1], or it has been reduced. *)
Definition mod_pow_inv_signed (m b0 e0 : Z) (s : Z * Z * Z) : Prop :=
  let '(result, base, exp) := s in
  0 <= exp /\ (result * base ^ exp) mod m = b0 ^ e0 mod m /\
  ((result = 1 /\ 1 <= exp) \/ result mod m = result).

(** Trial division by every [d] with [2 <= d <= sqrt n], the reference the
    answers of [is_prime] are compared with. *)
Definition trial_division (n : Z) : bool :=
  (1 <? n) && forallb (fun d => negb (n mod d =? 0)) (range 2 (Z.sqrt n + 1)).

(** ** Reasoning about computations *)

Section Computations.

Context {A B : Type}.

Lemma out_bind (c : M A) (k : A -> M B) (f : nat) (a : A) :
  out (c f) = Val a -> out (bind c k f) = out (k a f).
Proof.
  unfold bind. destruct (c f) as [[a' | e |] l]; simpl; intros H;
    inversion H; subst; reflexivity.
Qed.

Lemma returns_ret (a : A) : returns (ret a) a.
Proof. exists 0%nat. reflexivity. Qed.

Lemma returns_bind (c : M A) (k : A -> M B) (a : A) (b : B) :
  returns c a -> returns (k a) b -> returns (bind c k) b.
Proof.
  intros [f1 H1] [f2 H2]. exists (Nat.max f1 f2). intros f Hf.
  rewrite (out_bind c k f a) by (apply H1; lia). apply H2; lia.
Qed.

Lemma returns_inj (c : M A) (a a' : A) :
  returns c a -> returns c a' -> a = a'.
Proof.
  intros [f1 H1] [f2 H2].
  specialize (H1 (Nat.max f1 f2)). specialize (H2 (Nat.max f1 f2)).
  rewrite H1 in H2 by lia. injection H2; [auto | lia].
Qed.

Lemma calls_ret (P : call -> Prop) (a : A) : calls P (ret a).
Proof. intros f. constructor. Qed.

Lemma calls_raise (P : call -> Prop) (e : exn) : calls P (@raise A e).
Proof. intros f. constructor. Qed.

Lemma calls_bind (P : call -> Prop) (c : M A) (k : A -> M B) :
  calls P c -> (forall a, calls P (k a)) -> calls P (bind c k).
Proof.
  intros Hc Hk f. unfold bind. specialize (Hc f).
  destruct (c f) as [[a | e |] l]; simpl in *; auto.
  apply Forall_app. split; [assumption | apply Hk].
Qed.

End Computations.

Lemma calls_called (P : call -> Prop) (c : call) : P c -> calls P (called c).
Proof. intros H f. simpl. auto. Qed.

Lemma returns_py_mod (a b : Z) : b <> 0 -> returns (py_mod a b) (a mod b).
Proof.
  intros Hb. unfold py_mod. apply Z.eqb_neq in Hb. rewrite Hb. apply returns_ret.
Qed.

Lemma returns_py_floordiv (a b : Z) : b <> 0 -> returns (py_floordiv a b) (a / b).
Proof.
  intros Hb. unfold py_floordiv. apply Z.eqb_neq in Hb. rewrite Hb.
  apply returns_ret.
Qed.

Lemma calls_py_mod (P : call -> Prop) (a b : Z) : calls P (py_mod a b).
Proof. unfold py_mod. destruct (b =? 0); [apply calls_raise | apply calls_ret]. Qed.

Lemma calls_py_floordiv (P : call -> Prop) (a b : Z) : calls P (py_floordiv a b).
Proof.
  unfold py_floordiv. destruct (b =? 0); [apply calls_raise | apply calls_ret].
Qed.

Section Loops.

Context {S : Type}.
Variable cond : S -> bool.
Variable body : S -> M S.

(** Total correctness of a loop: an invariant [I] kept by the body, and a
    measure [m] that every iteration lowers. *)
Variable I : S -> Prop.
Variable m : S -> nat.
Hypothesis body_ok :
  forall s, I s -> cond s = true ->
    exists s', returns (body s) s' /\ I s' /\ (m s' < m s)%nat.

Lemma while_iter_returns (n : nat) :
  forall s, (m s < n)%nat -> I s ->
    exists s', I s' /\ cond s' = false /\
      exists g0 f0, forall g f, (g0 <= g)%nat -> (f0 <= f)%nat ->
        out (while_iter cond body g s f) = Val s'.
Proof.
  induction n as [| n IH]; intros s Hm Hs; [lia |].
  destruct (cond s) eqn:Hc.
  - destruct (body_ok s Hs Hc) as (s1 & [f1 H1] & Hs1 & Hlt).
    destruct (IH s1 ltac:(lia) Hs1) as (s' & Hs' & Hc' & g0 & f0 & H).
    exists s'. split; [assumption |]. split; [assumption |].
    exists (Datatypes.S g0), (Nat.max f1 f0). intros g f Hg Hf.
    destruct g as [| g]; [lia |]. simpl. rewrite Hc.
    rewrite (out_bind _ _ f s1) by (apply H1; lia).
    apply H; lia.
  - exists s. split; [assumption |]. split; [assumption |].
    exists 1%nat, 0%nat. intros g f Hg _.
    destruct g as [| g]; [lia |]. simpl. rewrite Hc. reflexivity.
Qed.

Lemma returns_while (s : S) :
  I s -> exists s', returns (while cond body s) s' /\ I s' /\ cond s' = false.
Proof.
  intros Hs.
  destruct (while_iter_returns (Datatypes.S (m s)) s ltac:(lia) Hs)
    as (s' & Hs' & Hc' & g0 & f0 & H).
  exists s'. split; [| auto].
  exists (Nat.max g0 f0). intros f Hf. unfold while. apply H; lia.
Qed.

End Loops.

Lemma calls_while_iter {S : Type} (P : call -> Prop) (cond : S -> bool)
    (body : S -> M S) :
  (forall s, calls P (body s)) -> forall g s, calls P (while_iter cond body g s).
Proof.
  intros Hb g. induction g as [| g IH]; intros s; simpl.
  - intros f. constructor.
  - destruct (cond s); [apply calls_bind; auto | apply calls_ret].
Qed.

Lemma calls_while {S : Type} (P : call -> Prop) (cond : S -> bool)
    (body : S -> M S) :
  (forall s, calls P (body s)) -> forall s, calls P (while cond body s).
Proof. intros Hb s f. unfold while. apply calls_while_iter, Hb. Qed.

Lemma returns_run {A : Type} (c : M A) (f : nat) (v : A) :
  mono c -> out (c f) = Val v -> returns c v.
Proof. intros Hm Hv. exists f. intros f' Hf. exact (Hm f f' v Hf Hv). Qed.

Lemma out_bind_inv {A B : Type} (c : M A) (k : A -> M B) (f : nat) (b : B) :
  out (bind c k f) = Val b -> exists a, out (c f) = Val a /\ out (k a f) = Val b.
Proof.
  unfold bind. destruct (c f) as [[a | e |] l]; simpl; intros H;
    try discriminate. eauto.
Qed.

Lemma mono_ret {A : Type} (a : A) : mono (ret a).
Proof. intros f f' v _ H. exact H. Qed.

Lemma mono_raise {A : Type} (e : exn) : mono (@raise A e).
Proof. intros f f' v _ H. discriminate H. Qed.

Lemma mono_called (c : call) : mono (called c).
Proof. intros f f' v _ H. exact H. Qed.

Lemma mono_bind {A B : Type} (c : M A) (k : A -> M B) :
  mono c -> (forall a, mono (k a)) -> mono (bind c k).
Proof.
  intros Hc Hk f f' v Hf H.
  destruct (out_bind_inv c k f v H) as (a & Ha & Hb).
  rewrite (out_bind c k f' a) by exact (Hc f f' a Hf Ha).
  exact (Hk a f f' v Hf Hb).
Qed.

Lemma mono_py_mod (a b : Z) : mono (py_mod a b).
Proof. unfold py_mod. destruct (b =? 0); [apply mono_raise | apply mono_ret]. Qed.

Lemma mono_py_floordiv (a b : Z) : mono (py_floordiv a b).
Proof.
  unfold py_floordiv. destruct (b =? 0); [apply mono_raise | apply mono_ret].
Qed.

Lemma while_iter_mono {S : Type} (cond : S -> bool) (body : S -> M S) :
  (forall s, mono (body s)) ->
  forall (g g' : nat) (s : S) (f f' : nat) (v : S),
    (g <= g')%nat -> (f <= f')%nat ->
    out (while_iter cond body g s f) = Val v ->
    out (while_iter cond body g' s f') = Val v.
Proof.
  intros Hb g. induction g as [| g IH]; intros g' s f f' v Hg Hf H; simpl in H;
    [discriminate H |].
  destruct g' as [| g']; [lia |]. simpl. destruct (cond s); [| exact H].
  destruct (out_bind_inv _ _ f v H) as (s1 & H1 & H2).
  rewrite (out_bind _ _ f' s1) by exact (Hb s f f' s1 Hf H1).
  apply (IH g' s1 f f' v); [lia | assumption | assumption].
Qed.

Lemma mono_while {S : Type} (cond : S -> bool) (body : S -> M S) (s : S) :
  (forall s, mono (body s)) -> mono (while cond body s).
Proof.
  intros Hb f f' v Hf H. unfold while in *.
  exact (while_iter_mono cond body Hb f f' s f f' v Hf Hf H).
Qed.

Lemma mono_for_in {A S : Type} (xs : list A) (body : A -> S -> M S) :
  (forall x s, mono (body x s)) -> forall s, mono (for_in xs body s).
Proof.
  intros Hb. induction xs as [| x xs IH]; intros s; simpl;
    [apply mono_ret | apply mono_bind; auto].
Qed.

Ltac mono_step :=
  match goal with
  | |- mono (ret _) => apply mono_ret
  | |- mono (raise _) => apply mono_raise
  | |- mono (called _) => apply mono_called
  | |- mono (py_mod _ _) => apply mono_py_mod
  | |- mono (py_floordiv _ _) => apply mono_py_floordiv
  | |- mono (bind _ _) => apply mono_bind; [| intros ?]
  | |- mono (while _ _ _) => apply mono_while; intros ?
  | |- mono (for_in _ _ _) => apply mono_for_in; intros ? ?
  | |- mono (if ?b then _ else _) => destruct b
  | |- mono (let '(_, _) := ?p in _) => destruct p
  | |- mono ((fun '(_, _) => _) ?p) => destruct p
  end.

(** A [for] loop that appends one element per iteration, the element
    described by [R]. *)
Lemma returns_for_in_append {A B : Type} (R : A -> B -> Prop)
    (body : A -> list B -> M (list B)) (xs : list A) :
  (forall x acc, In x xs -> exists b, R x b /\ returns (body x acc) (acc ++ [b])) ->
  forall acc, exists bs,
    Forall2 R xs bs /\ returns (for_in xs body acc) (acc ++ bs).
Proof.
  induction xs as [| x xs IH]; intros Hb acc; simpl.
  - exists []. split; [constructor |]. rewrite app_nil_r. apply returns_ret.
  - destruct (Hb x acc (or_introl eq_refl)) as (b & Hr & Hx).
    destruct (IH (fun y acc' Hy => Hb y acc' (or_intror Hy)) (acc ++ [b]))
      as (bs & Hbs & Hxs).
    exists (b :: bs). split; [constructor; assumption |].
    rewrite <- app_assoc in Hxs. simpl in Hxs.
    eapply returns_bind; eassumption.
Qed.

(** ** [mod_pow] *)

Lemma shiftr_1 (e : Z) : Z.shiftr e 1 = e / 2.
Proof. rewrite Z.shiftr_div_pow2 by lia. reflexivity. Qed.

(** One iteration keeps [result * base ^ exp] modulo [m]. *)
Lemma mod_pow_step (m result base exp : Z) :
  0 < exp ->
  ((if exp mod 2 =? 1 then (result * base) mod m else result)
   * ((base * base) mod m) ^ (exp / 2)) mod m
  = (result * base ^ exp) mod m.
Proof.
  intros He.
  pose proof (Z.div_mod exp 2 ltac:(lia)) as Hdm.
  pose proof (Z.mod_pos_bound exp 2 ltac:(lia)) as Hb.
  assert (Hq : 0 <= exp / 2) by (apply Z.div_pos; lia).
  set (r' := if exp mod 2 =? 1 then (result * base) mod m else result).
  set (q := exp / 2) in *.
  transitivity ((r' * base ^ (2 * q)) mod m).
  { rewrite <- (Zmult_mod_idemp_r (((base * base) mod m) ^ q)).
    rewrite Z.mod_pow_l, <- Z.pow_2_r, <- Z.pow_mul_r by lia.
    apply Zmult_mod_idemp_r. }
  subst r'. destruct (exp mod 2 =? 1) eqn:Hodd.
  - apply Z.eqb_eq in Hodd. rewrite Zmult_mod_idemp_l.
    replace (base ^ exp) with (base * base ^ (2 * q)).
    + f_equal. ring.
    + replace exp with (1 + 2 * q) by lia.
      rewrite Z.pow_add_r, Z.pow_1_r by lia. reflexivity.
  - apply Z.eqb_neq in Hodd. replace exp with (2 * q) by lia. reflexivity.
Qed.

Lemma mod_pow_body_ok (m b0 e0 : Z) (s : Z * Z * Z) :
  1 < m -> mod_pow_inv m b0 e0 s -> (let '(_, _, exp) := s in exp >? 0) = true ->
  exists s', returns (mod_pow_body m s) s' /\ mod_pow_inv m b0 e0 s' /\
    (Z.to_nat (snd s') < Z.to_nat (snd s))%nat.
Proof.
  destruct s as [[result base] exp]. intros Hm (He & Hr & Hinv) Hc.
  apply Z.gtb_lt in Hc.
  exists (if exp mod 2 =? 1 then (result * base) mod m else result,
          (base * base) mod m, exp / 2).
  assert (Hhalf : 0 <= exp / 2 < exp).
  { split; [apply Z.div_pos; lia | apply Z.div_lt; lia]. }
  split; [| split].
  - unfold mod_pow_body. rewrite shiftr_1.
    destruct (exp mod 2 =? 1);
      (eapply returns_bind; [first [apply returns_py_mod; lia | apply returns_ret] |]);
      (eapply returns_bind; [apply returns_py_mod; lia | apply returns_ret]).
  - unfold mod_pow_inv. split; [lia |]. split.
    + destruct (exp mod 2 =? 1); [apply Z.mod_pos_bound; lia | assumption].
    + rewrite mod_pow_step by lia. assumption.
  - simpl. lia.
Qed.

Lemma mod_pow_returns (base exp m : Z) :
  0 <= exp -> 1 <= m -> returns (mod_pow base exp m) (base ^ exp mod m).
Proof.
  intros He Hm. unfold mod_pow.
  eapply returns_bind; [exists 0%nat; reflexivity |].
  destruct (m =? 1) eqn:Hm1.
  - apply Z.eqb_eq in Hm1. subst m. rewrite Z.mod_1_r. apply returns_ret.
  - apply Z.eqb_neq in Hm1.
    eapply returns_bind; [apply returns_py_mod; lia |].
    destruct (returns_while (fun '(_, _, exp) => exp >? 0) (mod_pow_body m)
                (mod_pow_inv m base exp) (fun s => Z.to_nat (snd s))
                (fun s Hs Hc => mod_pow_body_ok m base exp s ltac:(lia) Hs Hc)
                (1, base mod m, exp))
      as ([[result b'] e'] & Hret & (He' & Hr & Hinv) & Hc).
    { unfold mod_pow_inv. split; [assumption |]. split; [lia |].
      rewrite Z.mul_1_l. apply Z.mod_pow_l. }
    eapply returns_bind; [exact Hret |].
    assert (e' = 0) by (rewrite Z.gtb_ltb in Hc; apply Z.ltb_ge in Hc; lia).
    subst e'. rewrite Z.pow_0_r, Z.mul_1_r in Hinv.
    rewrite <- Hinv, Z.mod_small by lia. apply returns_ret.
Qed.

(** ** [count_digits] and the decimal string *)

Lemma digits_of_inj (n c c' : Z) : digits_of n c -> digits_of n c' -> c = c'.
Proof.
  intros (Hc & Hlo & Hhi) (Hc' & Hlo' & Hhi').
  destruct (Z.lt_trichotomy c c') as [Hlt | [Heq | Hgt]]; [| assumption |].
  - pose proof (Z.pow_le_mono_r 10 c (c' - 1) ltac:(lia) ltac:(lia)). lia.
  - pose proof (Z.pow_le_mono_r 10 c' (c - 1) ltac:(lia) ltac:(lia)). lia.
Qed.

Lemma count_digits_body_ok (n0 : Z) (s : Z * Z) :
  count_digits_inv n0 s -> (let '(n, _) := s in n >? 0) = true ->
  exists s', returns ((fun '(n, digits) => ret (n / 10, digits + 1)) s) s' /\
    count_digits_inv n0 s' /\ (Z.to_nat (fst s') < Z.to_nat (fst s))%nat.
Proof.
  destruct s as [n digits]. intros (Hd & Hneg & Hpos) Hc.
  apply Z.gtb_lt in Hc. exists (n / 10, digits + 1).
  split; [apply returns_ret |]. split.
  - unfold count_digits_inv. split; [lia |]. split; [lia |].
    intros Hn0. destruct (Hpos Hn0) as [Hn _].
    assert (H10 : 0 < 10 ^ digits) by (apply Z.pow_pos_nonneg; lia).
    split.
    + rewrite Hn, Z.div_div, Z.pow_add_r by lia. reflexivity.
    + right. replace (digits + 1 - 1) with digits by lia.
      pose proof (Z.mul_div_le n0 (10 ^ digits) H10). nia.
  - simpl. pose proof (Z.div_lt n 10 ltac:(lia) ltac:(lia)).
    pose proof (Z.div_pos n 10 ltac:(lia) ltac:(lia)). lia.
Qed.

Lemma count_digits_returns (n : Z) :
  exists c, returns (count_digits n) c /\
    (n = 0 -> c = 1) /\ (n < 0 -> c = 0) /\ (0 < n -> digits_of n c).
Proof.
  unfold count_digits. destruct (n =? 0) eqn:Hn0.
  - apply Z.eqb_eq in Hn0. exists 1. split; [apply returns_ret | lia].
  - apply Z.eqb_neq in Hn0.
    destruct (returns_while (fun '(n, _) => n >? 0)
                (fun '(n, digits) => ret (n / 10, digits + 1))
                (count_digits_inv n) (fun s => Z.to_nat (fst s))
                (count_digits_body_ok n) (n, 0))
      as ([n' digits] & Hret & (Hd & Hneg & Hpos) & Hc).
    { unfold count_digits_inv. split; [lia |]. split; [lia |].
      intros _. rewrite Z.pow_0_r, Z.div_1_r. auto. }
    exists digits. split; [eapply returns_bind; [exact Hret | apply returns_ret] |].
    rewrite Z.gtb_ltb in Hc. apply Z.ltb_ge in Hc.
    split; [lia |]. split; [lia |]. intros Hn.
    destruct (Hpos Hn) as [Hn' Hlo].
    assert (H10 : 0 < 10 ^ digits) by (apply Z.pow_pos_nonneg; lia).
    pose proof (Z.div_pos n (10 ^ digits) ltac:(lia) H10).
    assert (Hsmall : n < 10 ^ digits).
    { apply Z.nle_gt. intros Hge.
      pose proof (Z.div_le_lower_bound n (10 ^ digits) 1 H10 ltac:(lia)). lia. }
    assert (digits <> 0) by (intros ->; rewrite Z.pow_0_r in Hsmall; lia).
    unfold digits_of. lia.
Qed.

Lemma count_digits_eval (n c : Z) :
  0 < n -> digits_of n c -> returns (count_digits n) c.
Proof.
  intros Hn Hc. destruct (count_digits_returns n) as (c' & Hret & _ & _ & Hpos).
  rewrite (digits_of_inj n c c' Hc (Hpos Hn)). exact Hret.
Qed.

(** The digits that follow an accumulated [acc] shift it by their number. *)
Lemma of_uint_acc_bounds (d : Decimal.uint) :
  forall acc : positive,
    Z.pos acc * 10 ^ Z.of_nat (Decimal.nb_digits d)
      <= Z.pos (Pos.of_uint_acc d acc)
      < (Z.pos acc + 1) * 10 ^ Z.of_nat (Decimal.nb_digits d).
Proof.
  induction d as [| d IH | d IH | d IH | d IH | d IH | d IH | d IH | d IH
                  | d IH | d IH]; intros acc;
    [simpl; lia | ..];
    cbn [Pos.of_uint_acc Decimal.nb_digits];
    rewrite Nat2Z.inj_succ, Z.pow_succ_r by lia;
    match goal with
    | |- context [Pos.of_uint_acc d ?a] => specialize (IH a)
    end;
    assert (0 < 10 ^ Z.of_nat (Decimal.nb_digits d))
      by (apply Z.pow_pos_nonneg; lia);
    nia.
Qed.

Lemma string_of_uint_length (d : Decimal.uint) :
  String.length (DecimalString.NilEmpty.string_of_uint d) = Decimal.nb_digits d.
Proof. induction d; simpl; congruence. Qed.

Lemma to_uint_normal (p : positive) : Decimal.unorm (Pos.to_uint p) = Pos.to_uint p.
Proof.
  rewrite <- (DecimalPos.Unsigned.to_of (Pos.to_uint p)).
  rewrite DecimalPos.Unsigned.of_to. reflexivity.
Qed.

Lemma len_str_pos (n : Z) : 0 < n -> digits_of n (len (str n)).
Proof.
  destruct n as [| p | p]; try lia. intros _.
  unfold str, len, Z.to_int, DecimalString.NilZero.string_of_int.
  pose proof (DecimalPos.Unsigned.of_to p) as Hof.
  pose proof (to_uint_normal p) as Hnorm.
  assert (Hlen : String.length (DecimalString.NilZero.string_of_uint (Pos.to_uint p))
                 = Decimal.nb_digits (Pos.to_uint p)).
  { unfold DecimalString.NilZero.string_of_uint.
    destruct (Pos.to_uint p) eqn:E; try apply string_of_uint_length.
    simpl in Hof. discriminate. }
  rewrite Hlen. clear Hlen.
  destruct (Pos.to_uint p) as [| d | d | d | d | d | d | d | d | d | d] eqn:E;
    [simpl in Hof; discriminate | ..];
    try (simpl in Hof; injection Hof as Hof;
         pose proof (of_uint_acc_bounds d) as Hb;
         match type of Hof with
         | Pos.of_uint_acc d ?a = p => specialize (Hb a); rewrite Hof in Hb
         end;
         unfold digits_of; cbn [Decimal.nb_digits];
         rewrite Nat2Z.inj_succ;
         replace (Z.succ (Z.of_nat (Decimal.nb_digits d)) - 1)
           with (Z.of_nat (Decimal.nb_digits d)) by lia;
         rewrite Z.pow_succ_r by lia;
         assert (0 < 10 ^ Z.of_nat (Decimal.nb_digits d))
           by (apply Z.pow_pos_nonneg; lia);
         nia).
  exfalso. unfold Decimal.unorm in Hnorm. rewrite DecimalFacts.nzhead_D0 in Hnorm.
  destruct (Decimal.nzhead d) eqn:Hz;
    try (injection Hnorm as <-; simpl in Hof; discriminate);
    try discriminate.
  exact (DecimalFacts.nzhead_nonzero d _ Hz).
Qed.

Lemma len_str_0 : len (str 0) = 1.
Proof. reflexivity. Qed.

Lemma len_str_neg (n : Z) : n < 0 -> len (str n) = 1 + len (str (- n)).
Proof.
  destruct n as [| p | p]; try lia. intros _.
  unfold str, len. cbn [Z.opp Z.to_int DecimalString.NilZero.string_of_int String.length].
  lia.
Qed.

Lemma len_str_ge_1 (n : Z) : 1 <= len (str n).
Proof.
  destruct (Z.lt_trichotomy n 0) as [Hn | [-> | Hn]].
  - rewrite len_str_neg by assumption. unfold len. lia.
  - rewrite len_str_0. lia.
  - apply (len_str_pos n Hn).
Qed.

Lemma count_digits_len_str (n : Z) : 0 <= n -> returns (count_digits n) (len (str n)).
Proof.
  intros Hn. destruct (Z.eq_dec n 0) as [-> | Hn0].
  - unfold count_digits. simpl. apply returns_ret.
  - apply count_digits_eval; [lia | apply len_str_pos; lia].
Qed.

(** ** [range] and element-wise relations *)

Lemma range_length (lo hi : Z) : List.length (range lo hi) = Z.to_nat (hi - lo).
Proof. unfold range. rewrite length_map, length_seq. reflexivity. Qed.

Lemma range_nth_error (lo hi : Z) (i : nat) :
  (i < Z.to_nat (hi - lo))%nat -> nth_error (range lo hi) i = Some (lo + Z.of_nat i).
Proof.
  intros Hi. unfold range. rewrite nth_error_map, nth_error_seq.
  apply Nat.ltb_lt in Hi. rewrite Hi. reflexivity.
Qed.

Lemma range_In (lo hi k : Z) : In k (range lo hi) -> lo <= k < hi.
Proof.
  unfold range. rewrite in_map_iff. intros (i & <- & Hi).
  apply in_seq in Hi. lia.
Qed.

Lemma Forall2_nth_error_r {A B : Type} (R : A -> B -> Prop) (xs : list A)
    (ys : list B) :
  Forall2 R xs ys ->
  forall i y, nth_error ys i = Some y -> exists x, nth_error xs i = Some x /\ R x y.
Proof.
  induction 1 as [| x y xs ys Hxy _ IH]; intros [| i] y' Hy; simpl in *;
    try discriminate.
  - injection Hy as <-. eauto.
  - eauto.
Qed.

Lemma Forall2_nth_error_l {A B : Type} (R : A -> B -> Prop) (xs : list A)
    (ys : list B) :
  Forall2 R xs ys ->
  forall i x, nth_error xs i = Some x -> exists y, nth_error ys i = Some y /\ R x y.
Proof.
  induction 1 as [| x y xs ys Hxy _ IH]; intros [| i] x' Hx; simpl in *;
    try discriminate.
  - injection Hx as <-. eauto.
  - eauto.
Qed.

Lemma Forall2_In_r {A B : Type} (R : A -> B -> Prop) (xs : list A) (ys : list B) :
  Forall2 R xs ys -> forall y, In y ys -> exists x, In x xs /\ R x y.
Proof.
  induction 1 as [| x y xs ys Hxy _ IH]; intros y' Hy; simpl in *; [tauto |].
  destruct Hy as [<- | Hy]; [eauto |].
  destruct (IH y' Hy) as (x' & Hx' & Hr). eauto.
Qed.

(** ** [is_prime] *)

Lemma is_prime_decompose_body_ok (d0 : Z) (s : Z * Z) :
  is_prime_decompose_inv d0 s -> (let '(d, _) := s in d mod 2 =? 0) = true ->
  exists s', returns ((fun '(d, r) => ret (d / 2, r + 1)) s) s' /\
    is_prime_decompose_inv d0 s' /\ (Z.to_nat (fst s') < Z.to_nat (fst s))%nat.
Proof.
  destruct s as [d r]. intros (Hd & Hr & Hd0) Hc. apply Z.eqb_eq in Hc.
  pose proof (Z.div_mod d 2 ltac:(lia)) as Hdm.
  exists (d / 2, r + 1). split; [apply returns_ret |]. split.
  - unfold is_prime_decompose_inv. rewrite Z.pow_add_r, Z.pow_1_r by lia.
    split; [lia |]. split; [lia |]. rewrite Hd0. nia.
  - simpl. lia.
Qed.

Lemma is_prime_decompose_returns (d0 : Z) :
  0 < d0 ->
  exists d r, returns (is_prime_decompose d0) (d, r) /\
    0 < d /\ 0 <= r /\ d0 = 2 ^ r * d /\ d mod 2 = 1.
Proof.
  intros Hd0.
  destruct (returns_while (fun '(d, _) => d mod 2 =? 0)
              (fun '(d, r) => ret (d / 2, r + 1))
              (is_prime_decompose_inv d0) (fun s => Z.to_nat (fst s))
              (is_prime_decompose_body_ok d0) (d0, 0))
    as ([d r] & Hret & (Hd & Hr & Heq) & Hc).
  { unfold is_prime_decompose_inv. rewrite Z.pow_0_r. lia. }
  exists d, r. apply Z.eqb_neq in Hc.
  pose proof (Z.mod_pos_bound d 2 ltac:(lia)).
  repeat split; try assumption; lia.
Qed.

(** With [d = 0] the loop never leaves: halving keeps [0] even. *)
Lemma is_prime_decompose_0_loops (r : Z) (g f : nat) :
  out (while_iter (fun '(d, _) => d mod 2 =? 0)
         (fun '(d, r) => ret (d / 2, r + 1)) g (0, r) f) = Timeout.
Proof.
  revert r. induction g as [| g IH]; intros r; simpl; [reflexivity |].
  unfold bind. simpl. apply IH.
Qed.

Lemma is_prime_squarings_returns (iters : nat) :
  forall x n, n <> 0 -> exists b, returns (is_prime_squarings iters x n) b.
Proof.
  induction iters as [| i IH]; intros x n Hn; simpl.
  - exists true. apply returns_ret.
  - destruct ((x * x) mod n =? n - 1) eqn:E.
    + exists false. eapply returns_bind; [apply returns_py_mod, Hn |].
      rewrite E. apply returns_ret.
    + destruct (IH ((x * x) mod n) n Hn) as [b Hb]. exists b.
      eapply returns_bind; [apply returns_py_mod, Hn |]. rewrite E. exact Hb.
Qed.

Lemma is_prime_witnesses_returns (ws : list Z) (n d r : Z) :
  0 <= d -> 1 <= n -> exists b, returns (is_prime_witnesses ws n d r) b.
Proof.
  intros Hd Hn. induction ws as [| a ws [b IH]]; simpl.
  - exists true. apply returns_ret.
  - destruct (a >=? n); [exists b; exact IH |].
    pose proof (mod_pow_returns a d n Hd Hn) as Hx.
    destruct ((a ^ d mod n =? 1) || (a ^ d mod n =? n - 1)) eqn:E.
    + exists b. eapply returns_bind; [exact Hx |]. rewrite E. exact IH.
    + destruct (is_prime_squarings_returns (Z.to_nat (r - 1)) (a ^ d mod n) n
                  ltac:(lia)) as [[|] Hc].
      * exists false. eapply returns_bind; [exact Hx |]. rewrite E.
        eapply returns_bind; [exact Hc | apply returns_ret].
      * exists b. eapply returns_bind; [exact Hx |]. rewrite E.
        eapply returns_bind; [exact Hc | exact IH].
Qed.

Lemma is_prime_returns (n : Z) : exists b, returns (is_prime n) b.
Proof.
  unfold is_prime. destruct (n <? 2) eqn:H2; [exists false; apply returns_ret |].
  destruct (existsb (Z.eqb n) _); [exists true; apply returns_ret |].
  destruct (n mod 2 =? 0); [exists false; apply returns_ret |].
  apply Z.ltb_ge in H2.
  destruct (is_prime_decompose_returns (n - 1) ltac:(lia))
    as (d & r & Hret & Hd & _).
  destruct (is_prime_witnesses_returns WITNESSES n d r ltac:(lia) ltac:(lia))
    as [b Hb].
  exists b. eapply returns_bind; [exact Hret | exact Hb].
Qed.

(** The three early exits, which need no loop: the answer is there with any
    bound, [0] included, and no call of [mod_pow] is made. *)
Lemma is_prime_lt_2 (n : Z) (fuel : nat) :
  n < 2 -> is_prime n fuel = Run (Val false) [].
Proof. intros H. unfold is_prime. apply Z.ltb_lt in H. rewrite H. reflexivity. Qed.

Lemma is_prime_small_prime (n : Z) (fuel : nat) :
  In n WITNESSES -> is_prime n fuel = Run (Val true) [].
Proof.
  intros H. simpl in H.
  repeat (destruct H as [<- | H]; [reflexivity |]). contradiction.
Qed.

Lemma is_prime_even (n : Z) (fuel : nat) :
  2 < n -> n mod 2 = 0 -> is_prime n fuel = Run (Val false) [].
Proof.
  intros H2 He. unfold is_prime.
  destruct (n <? 2) eqn:E; [apply Z.ltb_lt in E; lia |].
  destruct (existsb (Z.eqb n) _) eqn:Ex.
  - exfalso. simpl in Ex. repeat rewrite orb_true_iff in Ex.
    repeat rewrite Z.eqb_eq in Ex.
    repeat (destruct Ex as [Ex | Ex]; [subst n; try lia; discriminate He |]).
    discriminate Ex.
  - apply Z.eqb_eq in He. rewrite He. reflexivity.
Qed.

(** The calls of [mod_pow] that [is_prime n] makes. *)
Lemma mod_pow_calls (P : call -> Prop) (base exp m : Z) :
  P (base, exp, m) -> calls P (mod_pow base exp m).
Proof.
  intros HP. unfold mod_pow.
  apply calls_bind; [apply calls_called, HP | intros _].
  destruct (m =? 1); [apply calls_ret |].
  apply calls_bind; [apply calls_py_mod | intros b].
  apply calls_bind.
  - apply calls_while. intros [[result base'] exp']. unfold mod_pow_body.
    apply calls_bind.
    + destruct (exp' mod 2 =? 1); [apply calls_py_mod | apply calls_ret].
    + intros r. apply calls_bind; [apply calls_py_mod | intros; apply calls_ret].
  - intros [[result base'] exp']. apply calls_ret.
Qed.

Lemma is_prime_squarings_calls (P : call -> Prop) (iters : nat) :
  forall x n, calls P (is_prime_squarings iters x n).
Proof.
  induction iters as [| i IH]; intros x n; simpl; [apply calls_ret |].
  apply calls_bind; [apply calls_py_mod | intros x'].
  destruct (x' =? n - 1); [apply calls_ret | apply IH].
Qed.

Lemma is_prime_witnesses_calls (P : call -> Prop) (ws : list Z) (n d r : Z) :
  (forall a, P (a, d, n)) -> calls P (is_prime_witnesses ws n d r).
Proof.
  intros HP. induction ws as [| a ws IH]; simpl; [apply calls_ret |].
  destruct (a >=? n); [exact IH |].
  apply calls_bind; [apply mod_pow_calls, HP | intros x].
  destruct ((x =? 1) || (x =? n - 1)); [exact IH |].
  apply calls_bind; [apply is_prime_squarings_calls | intros [|]];
    [apply calls_ret | exact IH].
Qed.

Lemma is_prime_calls (n : Z) : calls (modulus_ok n) (is_prime n).
Proof.
  unfold is_prime. destruct (n <? 2) eqn:H2; [apply calls_ret |].
  destruct (existsb (Z.eqb n) _) eqn:Ex; [apply calls_ret |].
  destruct (n mod 2 =? 0) eqn:He; [apply calls_ret |].
  apply Z.ltb_ge in H2. apply Z.eqb_neq in He.
  pose proof (Z.div_mod n 2 ltac:(lia)) as Hdm.
  pose proof (Z.mod_pos_bound n 2 ltac:(lia)) as Hb.
  assert (H9 : 9 <= n).
  { apply Z.nlt_ge. intros Hlt.
    assert (Hn : n = 3 \/ n = 5 \/ n = 7) by lia.
    destruct Hn as [-> | [-> | ->]]; discriminate Ex. }
  apply calls_bind.
  - apply calls_while. intros [d r]. apply calls_ret.
  - intros [d r]. apply is_prime_witnesses_calls. intros a.
    unfold modulus_ok. lia.
Qed.

(** ** [analyze_number] *)

Lemma analyze_split_returns (n k : Z) (results : list row) :
  0 <= k ->
  exists r, split_row n k r /\ returns (analyze_split n k results) (results ++ [r]).
Proof.
  intros Hk.
  assert (H10 : 10 ^ k <> 0) by (pose proof (Z.pow_pos_nonneg 10 k); lia).
  destruct (is_prime_returns ((n / 10 ^ k) * (n mod 10 ^ k) + 1)) as [ip Hip].
  destruct (count_digits_returns ((n / 10 ^ k) * (n mod 10 ^ k) + 1))
    as (dg & Hdg & _).
  eexists. split.
  - exists ip, dg. split; [exact Hip |]. split; [exact Hdg | reflexivity].
  - unfold analyze_split.
    eapply returns_bind; [apply returns_py_floordiv, H10 |].
    eapply returns_bind; [apply returns_py_mod, H10 |].
    eapply returns_bind; [exact Hip |].
    eapply returns_bind; [exact Hdg | apply returns_ret].
Qed.

Lemma analyze_number_returns (n : Z) :
  exists rows,
    Forall2 (split_row n) (range 1 (len (str n))) rows /\
    returns (analyze_number n) rows.
Proof.
  unfold analyze_number.
  destruct (returns_for_in_append (split_row n) (analyze_split n)
              (range 1 (len (str n)))) with (acc := @nil row)
    as (rows & Hrows & Hret).
  - intros k acc Hk. apply range_In in Hk.
    apply analyze_split_returns. lia.
  - exists rows. split; assumption.
Qed.

(** For [n >= 0] the split positions are [1 .. count_digits n - 1]. *)
Lemma len_str_count_digits (n dc : Z) :
  0 <= n -> returns (count_digits n) dc -> len (str n) = dc.
Proof.
  intros Hn Hdc. eapply returns_inj; [apply count_digits_len_str, Hn | exact Hdc].
Qed.

(** A split position of [n >= 0] leaves a prefix: [10 ^ k <= n]. *)
Lemma split_pos_le (n k : Z) : 0 <= n -> 1 <= k < len (str n) -> 10 ^ k <= n.
Proof.
  intros Hn Hk. destruct (Z.eq_dec n 0) as [-> | Hn0].
  - rewrite len_str_0 in Hk. lia.
  - destruct (len_str_pos n ltac:(lia)) as (_ & Hlo & _).
    pose proof (Z.pow_le_mono_r 10 k (len (str n) - 1) ltac:(lia) ltac:(lia)).
    lia.
Qed.

Lemma split_arith (n k : Z) :
  0 <= n -> 0 <= k -> 10 ^ k <= n ->
  n / 10 ^ k * 10 ^ k + n mod 10 ^ k = n /\
  0 <= n mod 10 ^ k < 10 ^ k /\ 1 <= n / 10 ^ k /\
  1 <= n / 10 ^ k * (n mod 10 ^ k) + 1 <= n.
Proof.
  intros Hn Hk Hle.
  assert (H10 : 0 < 10 ^ k) by (apply Z.pow_pos_nonneg; lia).
  pose proof (Z.div_mod n (10 ^ k) ltac:(lia)) as Hdm.
  pose proof (Z.mod_pos_bound n (10 ^ k) H10) as Hb.
  pose proof (Z.div_le_lower_bound n (10 ^ k) 1 H10 ltac:(lia)) as Ha.
  repeat split; try lia; nia.
Qed.

(** ** Every function of the script is monotone in the bound *)

Lemma mod_pow_mono (base exp m : Z) : mono (mod_pow base exp m).
Proof. unfold mod_pow, mod_pow_body. repeat mono_step. Qed.

Lemma is_prime_squarings_mono (iters : nat) :
  forall x n, mono (is_prime_squarings iters x n).
Proof.
  induction iters as [| i IH]; intros x n; simpl; repeat mono_step. apply IH.
Qed.

Lemma is_prime_witnesses_mono (ws : list Z) (n d r : Z) :
  mono (is_prime_witnesses ws n d r).
Proof.
  induction ws as [| a ws IH]; simpl; repeat mono_step;
    first [exact IH | apply mod_pow_mono | apply is_prime_squarings_mono].
Qed.

Lemma is_prime_mono (n : Z) : mono (is_prime n).
Proof.
  unfold is_prime, is_prime_decompose. repeat mono_step.
  apply is_prime_witnesses_mono.
Qed.

Lemma count_digits_mono (n : Z) : mono (count_digits n).
Proof. unfold count_digits. repeat mono_step. Qed.

Lemma analyze_number_mono (n : Z) : mono (analyze_number n).
Proof.
  unfold analyze_number, analyze_split. repeat mono_step;
    first [apply is_prime_mono | apply count_digits_mono].
Qed.

(** ** Runs of the script *)

Example is_prime_37 : is_prime 37 0%nat = Run (Val true) [].
Proof. reflexivity. Qed.

(** [341 = 11 * 31] passes a Fermat test to base [2]; the first witness
    already rejects it. *)
Example is_prime_341 : is_prime 341 10%nat = Run (Val false) [(2, 85, 341)].
Proof. vm_compute. reflexivity. Qed.

Example is_prime_largest_u64_prime :
  out (is_prime 18446744073709551557 64%nat) = Val true.
Proof. vm_compute. reflexivity. Qed.

Example analyze_number_100 :
  out (analyze_number 100 10%nat)
  = Val [(100, 1, 10, 0, 1, false, 1); (100, 2, 1, 0, 1, false, 1)].
Proof. vm_compute. reflexivity. Qed.

Example analyze_number_11 :
  out (analyze_number 11 10%nat) = Val [(11, 1, 1, 1, 2, true, 1)].
Proof. vm_compute. reflexivity. Qed.

Example analyze_number_7 : out (analyze_number 7 10%nat) = Val [].
Proof. vm_compute. reflexivity. Qed.

Example analyze_number_1005 :
  out (analyze_number 1005 10%nat)
  = Val [(1005, 1, 100, 5, 501, false, 3); (1005, 2, 10, 5, 51, false, 2);
         (1005, 3, 1, 5, 6, false, 1)].
Proof. vm_compute. reflexivity. Qed.

Example analyze_number_1000003_first :
  exists rows,
    out (analyze_number 1000003 20%nat)
    = Val ((1000003, 1, 100000, 3, 300001, false, 6) :: rows).
Proof. eexists. vm_compute. reflexivity. Qed.

(** With modulus [0] the first [%] of [mod_pow] raises. *)
Example mod_pow_modulus_0 : out (mod_pow 2 5 0 10%nat) = Exn ZeroDivisionError.
Proof. reflexivity. Qed.

(** ** A prime is never rejected *)

(** Modulo a prime, [1] has the square roots [1] and [-1] only. *)
Lemma prime_sqrt_1 (n x : Z) :
  Z.prime n -> 0 <= x < n -> (x * x) mod n = 1 -> x = 1 \/ x = n - 1.
Proof.
  intros Hp Hx Hsq. pose proof (Z.prime_ge_2 n Hp) as Hn.
  assert (Hdiv : (n | (x - 1) * (x + 1))).
  { apply Z.mod_divide; [lia |].
    replace ((x - 1) * (x + 1)) with (x * x - 1) by ring.
    rewrite Zminus_mod, Hsq, Z.mod_1_l, Z.sub_diag by lia. apply Z.mod_0_l. lia. }
  apply (Z.divide_prime_mul _ _ _ Hp) in Hdiv.
  destruct Hdiv as [[q Hq] | [q Hq]]; [left | right].
  - assert (q = 0); [| subst q; lia].
    destruct (Z.lt_trichotomy q 0) as [Hlt | [Heq | Hgt]]; [| exact Heq |].
    + pose proof (Z.mul_le_mono_nonneg_r q (-1) n ltac:(lia) ltac:(lia)). lia.
    + pose proof (Z.mul_le_mono_nonneg_r 1 q n ltac:(lia) ltac:(lia)). lia.
  - assert (q = 1); [| subst q; lia].
    destruct (Z.lt_trichotomy q 1) as [Hlt | [Heq | Hgt]]; [| exact Heq |].
    + pose proof (Z.mul_le_mono_nonneg_r q 0 n ltac:(lia) ltac:(lia)). lia.
    + pose proof (Z.mul_le_mono_nonneg_r 2 q n ltac:(lia) ltac:(lia)). lia.
Qed.

Lemma is_prime_squarings_prime (n : Z) (iters : nat) :
  Z.prime n ->
  forall x, 0 <= x < n -> x <> 1 -> x <> n - 1 ->
    x ^ 2 ^ (Z.of_nat iters + 1) mod n = 1 ->
    returns (is_prime_squarings iters x n) false.
Proof.
  intros Hp. pose proof (Z.prime_ge_2 n Hp) as Hn.
  induction iters as [| i IH]; intros x Hx H1 Hm1 Hpow.
  - exfalso. change (2 ^ (Z.of_nat 0 + 1)) with 2 in Hpow.
    rewrite Z.pow_2_r in Hpow.
    destruct (prime_sqrt_1 n x Hp Hx Hpow); contradiction.
  - simpl. eapply returns_bind; [apply returns_py_mod; lia |].
    destruct ((x * x) mod n =? n - 1) eqn:E; [apply returns_ret |].
    apply Z.eqb_neq in E.
    apply IH; [apply Z.mod_pos_bound; lia | | exact E |].
    + intros Hsq. destruct (prime_sqrt_1 n x Hp Hx Hsq); contradiction.
    + rewrite Z.mod_pow_l, <- Z.pow_2_r, <- Z.pow_mul_r by lia.
      rewrite <- Z.pow_succ_r by lia.
      replace (Z.succ (Z.of_nat i + 1)) with (Z.of_nat (Datatypes.S i) + 1) by lia.
      exact Hpow.
Qed.

Lemma is_prime_witnesses_prime (ws : list Z) (n d r : Z) :
  Z.prime n -> n - 1 = 2 ^ r * d -> 1 <= r -> 0 <= d ->
  (forall a, In a ws -> 0 < a) ->
  returns (is_prime_witnesses ws n d r) true.
Proof.
  intros Hp Hnd Hr Hd. pose proof (Z.prime_ge_2 n Hp) as Hn.
  induction ws as [| a ws IH]; intros Hws; simpl; [apply returns_ret |].
  assert (IH' : returns (is_prime_witnesses ws n d r) true)
    by (apply IH; intros; apply Hws; right; assumption).
  pose proof (Hws a (or_introl eq_refl)) as Ha.
  destruct (a >=? n) eqn:Han; [exact IH' |].
  rewrite Z.geb_leb in Han. apply Z.leb_gt in Han.
  eapply returns_bind; [apply mod_pow_returns; lia |].
  destruct ((a ^ d mod n =? 1) || (a ^ d mod n =? n - 1)) eqn:E; [exact IH' |].
  apply orb_false_elim in E. destruct E as [E1 E2].
  apply Z.eqb_neq in E1, E2.
  assert (Hsq : returns (is_prime_squarings (Z.to_nat (r - 1)) (a ^ d mod n) n)
                  false).
  { apply (is_prime_squarings_prime n (Z.to_nat (r - 1)) Hp);
      [apply Z.mod_pos_bound; lia | exact E1 | exact E2 |].
    replace (Z.of_nat (Z.to_nat (r - 1)) + 1) with r by lia.
    rewrite Z.mod_pow_l, <- Z.pow_mul_r by (try apply Z.pow_nonneg; lia).
    rewrite (Z.mul_comm d), <- Hnd.
    apply ZmodInv.Z.fermat_nz; [exact Hp |]. rewrite Z.mod_small; lia. }
  eapply returns_bind; [exact Hsq | exact IH'].
Qed.

(** [is_prime] has no false negative, whatever the size of [n]. *)
Lemma is_prime_prime (n : Z) : Z.prime n -> returns (is_prime n) true.
Proof.
  intros Hp. pose proof (Z.prime_ge_2 n Hp) as Hn. unfold is_prime.
  destruct (n <? 2) eqn:H2; [apply Z.ltb_lt in H2; lia |].
  destruct (existsb (Z.eqb n) _) eqn:Ex; [apply returns_ret |].
  destruct (n mod 2 =? 0) eqn:He.
  - exfalso. apply Z.eqb_eq in He.
    assert (n <> 2) by (intros ->; discriminate Ex).
    destruct Hp as [_ Hp]. apply (Hp 2 ltac:(lia)).
    apply Z.mod_divide; [lia | exact He].
  - apply Z.eqb_neq in He.
    destruct (is_prime_decompose_returns (n - 1) ltac:(lia))
      as (d & r & Hret & Hd & Hr & Heq & Hodd).
    eapply returns_bind; [exact Hret |].
    apply is_prime_witnesses_prime; try assumption; try lia.
    + destruct (Z.eq_dec r 0) as [-> | Hr0]; [| lia].
      exfalso. rewrite Z.pow_0_r in Heq.
      pose proof (Z.div_mod n 2 ltac:(lia)). pose proof (Z.div_mod d 2 ltac:(lia)).
      pose proof (Z.mod_pos_bound n 2 ltac:(lia)). lia.
    + intros a Ha. simpl in Ha.
      repeat (destruct Ha as [<- | Ha]; [lia |]). contradiction.
Qed.

(** ** What an answer [True] means *)

Lemma is_prime_squarings_false (iters : nat) :
  forall x n, n <> 0 -> returns (is_prime_squarings iters x n) false ->
    exists j, 1 <= j <= Z.of_nat iters /\ x ^ 2 ^ j mod n = n - 1.
Proof.
  induction iters as [| i IH]; intros x n Hn Hret; simpl in Hret.
  - pose proof (returns_inj _ _ _ Hret (returns_ret true)). discriminate.
  - destruct ((x * x) mod n =? n - 1) eqn:E.
    + apply Z.eqb_eq in E. exists 1. split; [lia |].
      change (2 ^ 1) with 2. rewrite Z.pow_2_r. exact E.
    + destruct (is_prime_squarings_returns i ((x * x) mod n) n Hn) as [b Hb].
      assert (Hb' : returns (is_prime_squarings (Datatypes.S i) x n) b).
      { simpl. eapply returns_bind; [apply returns_py_mod, Hn |].
        rewrite E. exact Hb. }
      rewrite <- (returns_inj _ _ _ Hret Hb') in Hb.
      destruct (IH _ _ Hn Hb) as (j & Hj & Hpow).
      exists (j + 1). split; [lia |].
      rewrite Z.mod_pow_l, <- Z.pow_2_r, <- Z.pow_mul_r in Hpow
        by (try apply Z.pow_nonneg; lia).
      rewrite Z.pow_add_r, Z.pow_1_r, Z.mul_comm by lia. exact Hpow.
Qed.

Lemma is_prime_witnesses_true (ws : list Z) (n d r : Z) :
  0 <= d -> 1 <= r -> 2 <= n ->
  returns (is_prime_witnesses ws n d r) true ->
  forall a, In a ws -> a < n ->
    a ^ d mod n = 1 \/ exists i, 0 <= i < r /\ a ^ (2 ^ i * d) mod n = n - 1.
Proof.
  intros Hd Hr Hn. induction ws as [| w ws IH]; intros Hret a Ha Han;
    [contradiction |].
  simpl in Hret.
  destruct (w >=? n) eqn:Hwn.
  { destruct Ha as [-> | Ha]; [| exact (IH Hret a Ha Han)].
    rewrite Z.geb_leb in Hwn. apply Z.leb_le in Hwn. lia. }
  pose proof (mod_pow_returns w d n Hd ltac:(lia)) as Hx.
  destruct (is_prime_witnesses_returns ws n d r Hd ltac:(lia)) as [b Hb].
  destruct ((w ^ d mod n =? 1) || (w ^ d mod n =? n - 1)) eqn:E.
  - assert (Hb' : returns (is_prime_witnesses (w :: ws) n d r) b).
    { simpl. rewrite Hwn. eapply returns_bind; [exact Hx |]. rewrite E. exact Hb. }
    simpl in Hb'. rewrite Hwn in Hb'.
    rewrite <- (returns_inj _ _ _ Hret Hb') in Hb.
    destruct Ha as [-> | Ha]; [| exact (IH Hb a Ha Han)].
    apply orb_true_iff in E. destruct E as [E | E]; apply Z.eqb_eq in E.
    + left. exact E.
    + right. exists 0. split; [lia |]. rewrite Z.pow_0_r, Z.mul_1_l. exact E.
  - destruct (is_prime_squarings_returns (Z.to_nat (r - 1)) (w ^ d mod n) n
                ltac:(lia)) as [c Hc].
    destruct c.
    + assert (Hf : returns (is_prime_witnesses (w :: ws) n d r) false).
      { simpl. rewrite Hwn. eapply returns_bind; [exact Hx |]. rewrite E.
        eapply returns_bind; [exact Hc | apply returns_ret]. }
      simpl in Hf. rewrite Hwn in Hf.
      pose proof (returns_inj _ _ _ Hret Hf). discriminate.
    + assert (Hb' : returns (is_prime_witnesses (w :: ws) n d r) b).
      { simpl. rewrite Hwn. eapply returns_bind; [exact Hx |]. rewrite E.
        eapply returns_bind; [exact Hc | exact Hb]. }
      simpl in Hb'. rewrite Hwn in Hb'.
      rewrite <- (returns_inj _ _ _ Hret Hb') in Hb.
      destruct Ha as [-> | Ha]; [| exact (IH Hb a Ha Han)].
      assert (Hn0 : n <> 0) by lia.
      destruct (is_prime_squarings_false _ _ _ Hn0 Hc) as (j & Hj & Hpow).
      right. exists j. split; [lia |].
      rewrite Z.mod_pow_l, <- Z.pow_mul_r, Z.mul_comm in Hpow
        by (try apply Z.pow_nonneg; lia).
      exact Hpow.
Qed.

(** An accepted [n] is one of the twelve small primes or passes the test to
    each of the twelve bases.  (That no composite below [2^64] does so is the
    number-theoretic fact the script relies on.) *)
Lemma is_prime_true (n : Z) :
  returns (is_prime n) true ->
  In n WITNESSES \/
  (9 <= n /\ n mod 2 = 1 /\
   forall a, In a WITNESSES -> a < n -> strong_probable_prime n a).
Proof.
  unfold is_prime. intros Hret.
  destruct (n <? 2) eqn:H2.
  { pose proof (returns_inj _ _ _ Hret (returns_ret false)). discriminate. }
  destruct (existsb (Z.eqb n) _) eqn:Ex.
  { left. apply existsb_exists in Ex. destruct Ex as (w & Hw & Heq).
    apply Z.eqb_eq in Heq. subst w. exact Hw. }
  destruct (n mod 2 =? 0) eqn:He.
  { pose proof (returns_inj _ _ _ Hret (returns_ret false)). discriminate. }
  right. apply Z.ltb_ge in H2. apply Z.eqb_neq in He.
  pose proof (Z.div_mod n 2 ltac:(lia)) as Hdm.
  pose proof (Z.mod_pos_bound n 2 ltac:(lia)) as Hb.
  assert (H9 : 9 <= n).
  { apply Z.nlt_ge. intros Hlt.
    assert (Hn : n = 3 \/ n = 5 \/ n = 7) by lia.
    destruct Hn as [-> | [-> | ->]]; discriminate Ex. }
  split; [exact H9 |]. split; [lia |].
  destruct (is_prime_decompose_returns (n - 1) ltac:(lia))
    as (d & r & Hdr & Hd & Hr & Heq & Hodd).
  destruct (is_prime_witnesses_returns WITNESSES n d r ltac:(lia) ltac:(lia))
    as [b Hw].
  assert (Hb' : returns (dr <- is_prime_decompose (n - 1) ;;
                         let '(d, r) := dr in is_prime_witnesses WITNESSES n d r) b)
    by (eapply returns_bind; [exact Hdr | exact Hw]).
  rewrite <- (returns_inj _ _ _ Hret Hb') in Hw.
  assert (Hr1 : 1 <= r).
  { destruct (Z.eq_dec r 0) as [-> | Hr0]; [| lia].
    exfalso. rewrite Z.pow_0_r in Heq.
    pose proof (Z.div_mod d 2 ltac:(lia)). lia. }
  intros a Ha Han. exists d, r.
  repeat split; try assumption.
  exact (is_prime_witnesses_true WITNESSES n d r ltac:(lia) Hr1 ltac:(lia) Hw a Ha Han).
Qed.

(** ** The properties of the specification *)

(** C2: for every base, every exponent [>= 0] and every modulus [>= 1],
    [mod_pow] returns [base ^ exp mod modulus]; with modulus [1] it returns
    [0] whatever the base and the exponent, and with exponent [0] it returns
    [1] for every modulus above [1]. *)
Theorem mod_pow_spec (base exp mod_ : Z) :
  (0 <= exp -> 1 <= mod_ ->
   returns (mod_pow base exp mod_) (base ^ exp mod mod_)) /\
  returns (mod_pow base exp 1) 0 /\
  (1 < mod_ -> returns (mod_pow base 0 mod_) 1).
Proof.
  split; [apply mod_pow_returns |]. split.
  - unfold mod_pow. eapply returns_bind; [exists 0%nat; reflexivity |].
    apply returns_ret.
  - intros Hm. pose proof (mod_pow_returns base 0 mod_ ltac:(lia) ltac:(lia)) as H.
    rewrite Z.pow_0_r, Z.mod_1_l in H by assumption. exact H.
Qed.

Lemma mod_pow_spec_witness :
  returns (mod_pow 2 10 1000) 24 /\ returns (mod_pow (-7) 5 1) 0 /\
  returns (mod_pow (-7) 0 5) 1.
Proof.
  split; [| split].
  - apply (proj1 (mod_pow_spec 2 10 1000)); lia.
  - apply (proj1 (proj2 (mod_pow_spec (-7) 5 5))).
  - apply (proj2 (proj2 (mod_pow_spec (-7) 0 5))). lia.
Defined.




(** C4: for every [n >= 0] and every split position [k] with
    [1 <= k <= count_digits n - 1], the row of [analyze_number n] at position
    [k] has [a = n // 10^k] and [b = n % 10^k], with [a * 10^k + b = n],
    [0 <= b < 10^k] and [a >= 1]. *)
Theorem analyze_number_split (n k dc : Z) :
  0 <= n -> returns (count_digits n) dc -> 1 <= k <= dc - 1 ->
  exists rows a b product ip dg,
    returns (analyze_number n) rows /\
    nth_error rows (Z.to_nat (k - 1)) = Some (n, k, a, b, product, ip, dg) /\
    a = n / 10 ^ k /\ b = n mod 10 ^ k /\
    a * 10 ^ k + b = n /\ 0 <= b < 10 ^ k /\ 1 <= a.
Proof.
  intros Hn Hdc Hk.
  destruct (analyze_number_returns n) as (rows & Hrows & Hret).
  rewrite (len_str_count_digits n dc Hn Hdc) in Hrows.
  pose proof (range_nth_error 1 dc (Z.to_nat (k - 1)) ltac:(lia)) as Hnth.
  replace (1 + Z.of_nat (Z.to_nat (k - 1))) with k in Hnth by lia.
  destruct (Forall2_nth_error_l _ _ _ Hrows _ _ Hnth)
    as (r & Hr & ip & dg & _ & _ & ->).
  exists rows, (n / 10 ^ k), (n mod 10 ^ k),
    (n / 10 ^ k * (n mod 10 ^ k) + 1), ip, dg.
  assert (Hle : 10 ^ k <= n).
  { apply split_pos_le; [assumption |].
    rewrite (len_str_count_digits n dc Hn Hdc). lia. }
  pose proof (split_arith n k Hn ltac:(lia) Hle).
  repeat split; try assumption; lia.
Qed.

Lemma analyze_number_split_witness :
  exists rows a b product ip dg,
    returns (analyze_number 1005) rows /\
    nth_error rows (Z.to_nat (2 - 1)) = Some (1005, 2, a, b, product, ip, dg) /\
    a = 1005 / 10 ^ 2 /\ b = 1005 mod 10 ^ 2 /\
    a * 10 ^ 2 + b = 1005 /\ 0 <= b < 10 ^ 2 /\ 1 <= a.
Proof.
  apply (analyze_number_split 1005 2 4); [lia | | lia].
  apply (returns_run _ 10%nat); [apply count_digits_mono | vm_compute; reflexivity].
Defined.

(** C5: for every [n >= 0], [analyze_number n] yields exactly
    [max 0 (count_digits n - 1)] rows, the row at index [i] (from [0]) having
    split position [i + 1]; a single digit [n] yields no row. *)
Theorem analyze_number_count (n dc : Z) :
  0 <= n -> returns (count_digits n) dc ->
  exists rows,
    returns (analyze_number n) rows /\
    List.length rows = Z.to_nat (Z.max 0 (dc - 1)) /\
    (forall i r, nth_error rows i = Some r -> row_k r = Z.of_nat i + 1) /\
    (n < 10 -> rows = []).
Proof.
  intros Hn Hdc.
  destruct (analyze_number_returns n) as (rows & Hrows & Hret).
  rewrite (len_str_count_digits n dc Hn Hdc) in Hrows.
  assert (Hlen : List.length rows = Z.to_nat (Z.max 0 (dc - 1))).
  { rewrite <- (Forall2_length Hrows), range_length. lia. }
  exists rows. split; [exact Hret |]. split; [exact Hlen |]. split.
  - intros i r Hi.
    destruct (Forall2_nth_error_r _ _ _ Hrows i r Hi)
      as (k & Hki & ip & dg & _ & _ & ->).
    assert (Hlt : (i < Z.to_nat (dc - 1))%nat).
    { rewrite <- range_length. apply nth_error_Some. congruence. }
    rewrite (range_nth_error 1 dc i Hlt) in Hki.
    assert (Hk : k = 1 + Z.of_nat i) by congruence.
    cbv beta iota delta [row_k]. lia.
  - intros H10. assert (dc = 1).
    { destruct (Z.eq_dec n 0) as [-> | Hn0].
      - destruct (count_digits_returns 0) as (c & Hc & H0 & _).
        rewrite <- (returns_inj _ _ _ Hc Hdc). auto.
      - apply (digits_of_inj n).
        + destruct (count_digits_returns n) as (c & Hc & _ & _ & Hpos).
          rewrite <- (returns_inj _ _ _ Hc Hdc). apply Hpos. lia.
        + unfold digits_of. simpl. lia. }
    subst dc. destruct rows; [reflexivity | discriminate Hlen].
Qed.

Lemma analyze_number_count_witness :
  exists rows,
    returns (analyze_number 1005) rows /\
    List.length rows = Z.to_nat (Z.max 0 (4 - 1)) /\
    (forall i r, nth_error rows i = Some r -> row_k r = Z.of_nat i + 1) /\
    (1005 < 10 -> rows = []).
Proof.
  apply (analyze_number_count 1005 4); [lia |].
  apply (returns_run _ 10%nat); [apply count_digits_mono | vm_compute; reflexivity].
Defined.

(** C6: [is_prime n] is [False] for every [n < 2], [True] for each of the
    twelve witness values, and [False] for every even [n > 2]; each answer is
    there before the general test: no loop is entered (any bound will do) and
    [mod_pow] is not called. *)
Theorem is_prime_fast_paths (n : Z) (fuel : nat) :
  (n < 2 -> is_prime n fuel = Run (Val false) []) /\
  (In n WITNESSES -> is_prime n fuel = Run (Val true) []) /\
  (2 < n -> n mod 2 = 0 -> is_prime n fuel = Run (Val false) []).
Proof.
  split; [apply is_prime_lt_2 |].
  split; [apply is_prime_small_prime | apply is_prime_even].
Qed.

Lemma is_prime_fast_paths_witness :
  is_prime 0 0%nat = Run (Val false) [] /\
  is_prime 1 0%nat = Run (Val false) [] /\
  is_prime 37 0%nat = Run (Val true) [] /\
  is_prime 1000 0%nat = Run (Val false) [].
Proof.
  split; [apply (proj1 (is_prime_fast_paths 0 0%nat)); lia |].
  split; [apply (proj1 (is_prime_fast_paths 1 0%nat)); lia |].
  split.
  - apply (proj1 (proj2 (is_prime_fast_paths 37 0%nat))). simpl. tauto.
  - apply (proj2 (proj2 (is_prime_fast_paths 1000 0%nat))); [lia | reflexivity].
Defined.

(** C7: for every [n >= 0], [count_digits n] is the length of the decimal
    string of [n]; in particular [count_digits 0] is [1]. *)
Theorem count_digits_str (n : Z) :
  0 <= n ->
  returns (count_digits n) (len (str n)) /\ returns (count_digits 0) 1.
Proof.
  intros Hn. split; [apply count_digits_len_str, Hn |].
  apply (count_digits_len_str 0). lia.
Qed.

Lemma count_digits_str_witness :
  returns (count_digits 1000) (len (str 1000)) /\ returns (count_digits 0) 1.
Proof. apply (count_digits_str 1000). lia. Defined.

(** C8, as stated, fails in its last part: [is_prime 9] reaches the general
    test and calls [mod_pow 2 1 9], a modulus that is not above [37]. *)
Lemma is_prime_9_calls_mod_pow :
  In (2, 1, 9) (log (is_prime 9 10%nat)) /\ ~ 37 < 9.
Proof. split; [vm_compute; auto | lia]. Qed.

(** C8, amended: [is_prime] never calls [mod_pow] with modulus [0]: whenever
    [is_prime n] calls [mod_pow a d m], the modulus [m] is [n] itself and is
    at least [2]; in fact [n] is odd and [n >= 9]. *)
Theorem is_prime_modulus (n : Z) (fuel : nat) (a d m : Z) :
  In (a, d, m) (log (is_prime n fuel)) ->
  m <> 0 /\ 2 <= m /\ m = n /\ n mod 2 = 1 /\ 9 <= n.
Proof.
  intros Hin. pose proof (is_prime_calls n fuel) as Hall.
  rewrite Forall_forall in Hall. specialize (Hall _ Hin).
  unfold modulus_ok in Hall. lia.
Qed.

Lemma is_prime_modulus_witness :
  9 <> 0 /\ 2 <= 9 /\ 9 = 9 /\ 9 mod 2 = 1 /\ 9 <= 9.
Proof. apply (is_prime_modulus 9 10%nat 2 1 9). vm_compute. auto. Defined.

(** C9: [is_prime] returns a boolean for every [n >= 0], and so do its
    loops: [mod_pow] returns for every exponent [>= 0] and modulus [>= 1], the
    loop that writes [n - 1 = 2^r * d] with [d] odd returns for every odd
    [n > 37], and [count_digits] returns for every [n >= 0]. *)
Theorem is_prime_total (n base exp mod_ : Z) :
  0 <= n -> 0 <= exp -> 1 <= mod_ ->
  (exists b : bool, returns (is_prime n) b) /\
  (exists v : Z, returns (mod_pow base exp mod_) v) /\
  (exists c : Z, returns (count_digits n) c) /\
  (37 < n -> n mod 2 = 1 ->
   exists d r : Z,
     returns (is_prime_decompose (n - 1)) (d, r) /\
     n - 1 = 2 ^ r * d /\ 0 <= r /\ d mod 2 = 1).
Proof.
  intros Hn He Hm.
  split; [apply is_prime_returns |].
  split; [eexists; apply mod_pow_returns; assumption |].
  split.
  - destruct (count_digits_returns n) as (c & Hc & _). exists c. exact Hc.
  - intros H37 _.
    destruct (is_prime_decompose_returns (n - 1) ltac:(lia))
      as (d & r & Hret & _ & Hr & Heq & Hodd).
    exists d, r. auto.
Qed.

Lemma is_prime_total_witness :
  (exists b : bool, returns (is_prime 41) b) /\
  (exists v : Z, returns (mod_pow 2 5 41) v) /\
  (exists c : Z, returns (count_digits 41) c) /\
  (37 < 41 -> 41 mod 2 = 1 ->
   exists d r : Z,
     returns (is_prime_decompose (41 - 1)) (d, r) /\
     41 - 1 = 2 ^ r * d /\ 0 <= r /\ d mod 2 = 1).
Proof. apply (is_prime_total 41 2 5 41); lia. Defined.

(** C10, as stated, fails on a negative input, which [analyze_number] takes
    like any other: [-123] gives the row [(-123, 1, -13, 7, -90, False, 0)],
    with a product below [1] and [0] digits. *)
Lemma analyze_number_negative_row :
  exists rows r,
    returns (analyze_number (-123)) rows /\ In r rows /\
    r = (-123, 1, -13, 7, -90, false, 0) /\
    ~ (1 <= row_product r /\ 1 <= row_digits r).
Proof.
  exists [(-123, 1, -13, 7, -90, false, 0); (-123, 2, -2, 77, -153, false, 0);
          (-123, 3, -1, 877, -876, false, 0)],
         (-123, 1, -13, 7, -90, false, 0).
  split; [| split; [simpl; auto | split; [reflexivity | simpl; lia]]].
  apply (returns_run _ 10%nat); [apply analyze_number_mono | vm_compute; reflexivity].
Qed.

(** C10, amended: for every [n >= 0], every row of [analyze_number n] has
    [a >= 1], [b >= 0], [product = a * b + 1 >= 1] and [digits >= 1]. *)
Theorem analyze_number_rows_positive (n : Z) :
  0 <= n ->
  exists rows,
    returns (analyze_number n) rows /\
    Forall (fun r =>
              1 <= row_a r /\ 0 <= row_b r /\
              row_product r = row_a r * row_b r + 1 /\
              1 <= row_product r /\ 1 <= row_digits r) rows.
Proof.
  intros Hn. destruct (analyze_number_returns n) as (rows & Hrows & Hret).
  exists rows. split; [exact Hret |].
  apply Forall_forall. intros r Hr.
  destruct (Forall2_In_r _ _ _ Hrows r Hr) as (k & Hk & ip & dg & _ & Hdg & ->).
  apply range_In in Hk.
  pose proof (split_pos_le n k Hn Hk) as Hle.
  pose proof (split_arith n k Hn ltac:(lia) Hle) as Har.
  cbv beta iota delta [row_a row_b row_product row_digits].
  repeat split; try lia.
  destruct (count_digits_returns (n / 10 ^ k * (n mod 10 ^ k) + 1))
    as (c & Hc & _ & _ & Hpos).
  rewrite <- (returns_inj _ _ _ Hc Hdg).
  destruct (Hpos ltac:(lia)) as [H1 _]. exact H1.
Qed.

Lemma analyze_number_rows_positive_witness :
  exists rows,
    returns (analyze_number 1005) rows /\
    Forall (fun r =>
              1 <= row_a r /\ 0 <= row_b r /\
              row_product r = row_a r * row_b r + 1 /\
              1 <= row_product r /\ 1 <= row_digits r) rows.
Proof. apply (analyze_number_rows_positive 1005). lia. Defined.

(** ** Further properties of [mod_pow] *)

Lemma mod_pow_body_signed_ok (m b0 e0 : Z) (s : Z * Z * Z) :
  m <> 0 -> mod_pow_inv_signed m b0 e0 s ->
  (let '(_, _, exp) := s in exp >? 0) = true ->
  exists s', returns (mod_pow_body m s) s' /\ mod_pow_inv_signed m b0 e0 s' /\
    (Z.to_nat (snd s') < Z.to_nat (snd s))%nat.
Proof.
  destruct s as [[result base] exp]. intros Hm (He & Hinv & Hred) Hc.
  apply Z.gtb_lt in Hc.
  exists (if exp mod 2 =? 1 then (result * base) mod m else result,
          (base * base) mod m, exp / 2).
  assert (Hhalf : 0 <= exp / 2 < exp).
  { split; [apply Z.div_pos; lia | apply Z.div_lt; lia]. }
  pose proof (Z.div_mod exp 2 ltac:(lia)) as Hdm.
  pose proof (Z.mod_pos_bound exp 2 ltac:(lia)) as Hb.
  split; [| split].
  - unfold mod_pow_body. rewrite shiftr_1.
    destruct (exp mod 2 =? 1);
      (eapply returns_bind; [first [apply returns_py_mod; lia | apply returns_ret] |]);
      (eapply returns_bind; [apply returns_py_mod; lia | apply returns_ret]).
  - unfold mod_pow_inv_signed. split; [lia |]. split.
    + rewrite mod_pow_step by lia. assumption.
    + destruct (exp mod 2 =? 1) eqn:Hodd.
      * right. apply Z.mod_mod. exact Hm.
      * apply Z.eqb_neq in Hodd. destruct Hred as [[-> H1] | Hred];
          [left; split; [reflexivity | lia] | right; exact Hred].
  - simpl. lia.
Qed.

Lemma mod_pow_returns_signed (base exp m : Z) :
  m <> 0 -> 1 <= exp -> returns (mod_pow base exp m) (base ^ exp mod m).
Proof.
  intros Hm He. unfold mod_pow.
  eapply returns_bind; [exists 0%nat; reflexivity |].
  destruct (m =? 1) eqn:Hm1.
  - apply Z.eqb_eq in Hm1. subst m. rewrite Z.mod_1_r. apply returns_ret.
  - eapply returns_bind; [apply returns_py_mod; lia |].
    destruct (returns_while (fun '(_, _, exp) => exp >? 0) (mod_pow_body m)
                (mod_pow_inv_signed m base exp) (fun s => Z.to_nat (snd s))
                (fun s Hs Hc => mod_pow_body_signed_ok m base exp s Hm Hs Hc)
                (1, base mod m, exp))
      as ([[result b'] e'] & Hret & (He' & Hinv & Hred) & Hc).
    { unfold mod_pow_inv_signed. split; [lia |]. split; [| left; lia].
      rewrite Z.mul_1_l. apply Z.mod_pow_l. }
    eapply returns_bind; [exact Hret |].
    assert (e' = 0) by (rewrite Z.gtb_ltb in Hc; apply Z.ltb_ge in Hc; lia).
    subst e'. rewrite Z.pow_0_r, Z.mul_1_r in Hinv.
    destruct Hred as [[_ H1] | Hred]; [lia |].
    rewrite <- Hinv, Hred. apply returns_ret.
Qed.

Lemma mod_pow_returns_nonpositive (base exp m : Z) :
  exp <= 0 -> m <> 0 -> m <> 1 -> returns (mod_pow base exp m) 1.
Proof.
  intros He Hm Hm1. unfold mod_pow.
  eapply returns_bind; [exists 0%nat; reflexivity |].
  apply Z.eqb_neq in Hm1. rewrite Hm1.
  eapply returns_bind; [apply returns_py_mod; exact Hm |].
  assert (Hw : returns (while (fun '(_, _, exp) => exp >? 0) (mod_pow_body m)
                          (1, base mod m, exp)) (1, base mod m, exp)).
  { exists 1%nat. intros f Hf. unfold while. destruct f as [| f]; [lia |].
    simpl. replace (exp >? 0) with false; [reflexivity |].
    symmetry. rewrite Z.gtb_ltb. apply Z.ltb_ge. exact He. }
  eapply returns_bind; [exact Hw | apply returns_ret].
Qed.

Lemma mod_pow_raises_0 (base exp : Z) (fuel : nat) :
  out (mod_pow base exp 0 fuel) = Exn ZeroDivisionError.
Proof. reflexivity. Qed.

(** X1: [mod_pow] raises [ZeroDivisionError] exactly when the modulus is [0]:
    it does so for every base and exponent, and with any other modulus,
    negative ones included, it returns a value for every base and exponent. *)
Theorem mod_pow_raises_iff (base exp mod_ : Z) :
  (mod_ = 0 <-> raises (mod_pow base exp mod_) ZeroDivisionError) /\
  (mod_ <> 0 <-> exists v, returns (mod_pow base exp mod_) v).
Proof.
  assert (H0 : raises (mod_pow base exp 0) ZeroDivisionError).
  { exists 0%nat. intros f _. apply mod_pow_raises_0. }
  assert (Hv : mod_ <> 0 -> exists v, returns (mod_pow base exp mod_) v).
  { intros Hm. destruct (Z_le_gt_dec exp 0) as [He | He].
    - destruct (Z.eq_dec mod_ 1) as [-> | Hm1].
      + exists 0. unfold mod_pow.
        eapply returns_bind; [exists 0%nat; reflexivity | apply returns_ret].
      + exists 1. apply mod_pow_returns_nonpositive; assumption.
    - eexists. apply mod_pow_returns_signed; [assumption | lia]. }
  assert (Hex : forall (c : M Z) e v, raises c e -> returns c v -> False).
  { intros c e v [f1 H1] [f2 H2].
    specialize (H1 (Nat.max f1 f2) ltac:(lia)).
    specialize (H2 (Nat.max f1 f2) ltac:(lia)). congruence. }
  split; split.
  - intros ->. exact H0.
  - intros Hr. destruct (Z.eq_dec mod_ 0) as [Hm | Hm]; [exact Hm |].
    destruct (Hv Hm) as [v Hret]. destruct (Hex _ _ _ Hr Hret).
  - exact Hv.
  - intros [v Hret] ->. exact (Hex _ _ _ H0 Hret).
Qed.

(** X2: for every modulus other than [0], negative ones included, and every
    exponent [>= 1], [mod_pow] returns [base ^ exp mod modulus] with the sign
    of the modulus, as Python's [%] gives it. *)
Theorem mod_pow_signed (base exp mod_ : Z) :
  mod_ <> 0 -> 1 <= exp ->
  returns (mod_pow base exp mod_) (base ^ exp mod mod_).
Proof. intros Hm He. apply mod_pow_returns_signed; assumption. Qed.

Lemma mod_pow_signed_witness : returns (mod_pow 2 5 (-7)) (-3).
Proof. apply (mod_pow_signed 2 5 (-7)); lia. Defined.

(** X3: with an exponent [<= 0] and a modulus other than [0] and [1] the
    loop is not entered and [mod_pow] returns [1], which is not reduced:
    [mod_pow a 0 (-1)] is [1], and a negative exponent gives no inverse. *)
Theorem mod_pow_nonpositive_exp (base exp mod_ : Z) :
  exp <= 0 -> mod_ <> 0 -> mod_ <> 1 -> returns (mod_pow base exp mod_) 1.
Proof. intros He Hm Hm1. apply mod_pow_returns_nonpositive; assumption. Qed.

Lemma mod_pow_nonpositive_exp_witness :
  returns (mod_pow 3 (-1) 7) 1 /\ returns (mod_pow 3 0 (-1)) 1.
Proof.
  split; [apply (mod_pow_nonpositive_exp 3 (-1) 7) |
          apply (mod_pow_nonpositive_exp 3 0 (-1))]; lia.
Defined.

(** ** Further properties of [is_prime] *)

Lemma In_range (lo hi k : Z) : lo <= k < hi -> In k (range lo hi).
Proof.
  intros Hk. unfold range. apply in_map_iff.
  exists (Z.to_nat (k - lo)). split; [lia |]. apply in_seq. lia.
Qed.

Lemma trial_division_prime (n : Z) : trial_division n = true -> Z.prime n.
Proof.
  unfold trial_division. intros H. apply andb_prop in H. destruct H as [H1 Hall].
  apply Z.ltb_lt in H1. rewrite forallb_forall in Hall.
  split; [exact H1 |]. intros d Hd [q Hq].
  pose proof (Z.sqrt_spec n ltac:(lia)) as Hs. set (s := Z.sqrt n) in *.
  assert (Hq2 : 2 <= q) by nia.
  assert (Hsmall : exists e, 2 <= e <= s /\ n mod e = 0).
  { destruct (Z_le_gt_dec d s) as [Hds | Hds].
    - exists d. split; [lia |]. rewrite Hq. apply Z.mod_mul. lia.
    - exists q. split; [split; [lia |] |].
      + destruct (Z_le_gt_dec q s) as [Hqs | Hqs]; [exact Hqs | exfalso].
        pose proof (Z.sqrt_nonneg n) as Hs0. fold s in Hs0.
        pose proof (Z.mul_le_mono_nonneg (s + 1) q (s + 1) d
                      ltac:(lia) ltac:(lia) ltac:(lia) ltac:(lia)).
        unfold Z.succ in Hs. lia.
      + rewrite Hq, Z.mul_comm. apply Z.mod_mul. lia. }
  destruct Hsmall as (e & He & Hmod).
  specialize (Hall e (In_range 2 (s + 1) e ltac:(lia))).
  rewrite Hmod in Hall. discriminate Hall.
Qed.

Lemma decompose_unique (r r' d d' : Z) :
  0 <= r -> 0 <= r' -> d mod 2 = 1 -> d' mod 2 = 1 ->
  2 ^ r * d = 2 ^ r' * d' -> r = r' /\ d = d'.
Proof.
  assert (Hlt : forall r r' d d',
             0 <= r < r' -> d mod 2 = 1 -> 2 ^ r * d = 2 ^ r' * d' -> False).
  { clear. intros r r' d d' Hr Hd Heq.
    replace r' with (r + (1 + (r' - r - 1))) in Heq by lia.
    rewrite !Z.pow_add_r, Z.pow_1_r, <- !Z.mul_assoc in Heq by lia.
    apply Z.mul_reg_l in Heq; [| pose proof (Z.pow_pos_nonneg 2 r); lia].
    pose proof (Z.div_mod d 2 ltac:(lia)). lia. }
  intros Hr Hr' Hd Hd' Heq.
  destruct (Z.lt_trichotomy r r') as [H | [H | H]].
  - exfalso. exact (Hlt r r' d d' ltac:(lia) Hd Heq).
  - subst r'. split; [reflexivity |].
    apply Z.mul_reg_l in Heq; [exact Heq |].
    pose proof (Z.pow_pos_nonneg 2 r); lia.
  - exfalso. exact (Hlt r' r d' d ltac:(lia) Hd' (eq_sym Heq)).
Qed.

Lemma is_prime_squarings_pass (iters : nat) :
  forall x n j, n <> 0 -> 1 <= j <= Z.of_nat iters ->
    x ^ 2 ^ j mod n = n - 1 -> returns (is_prime_squarings iters x n) false.
Proof.
  induction iters as [| i IH]; intros x n j Hn Hj Hpow; [lia |].
  simpl. eapply returns_bind; [apply returns_py_mod, Hn |].
  destruct ((x * x) mod n =? n - 1) eqn:E; [apply returns_ret |].
  apply Z.eqb_neq in E.
  assert (j <> 1).
  { intros ->. change (2 ^ 1) with 2 in Hpow. rewrite Z.pow_2_r in Hpow.
    contradiction. }
  apply (IH _ _ (j - 1) Hn ltac:(lia)).
  rewrite Z.mod_pow_l, <- Z.pow_2_r, <- Z.pow_mul_r by (try apply Z.pow_nonneg; lia).
  rewrite <- Z.pow_succ_r by lia. replace (Z.succ (j - 1)) with j by lia.
  exact Hpow.
Qed.

Lemma is_prime_witnesses_pass (ws : list Z) (n d r : Z) :
  0 <= d -> 1 <= r -> 2 <= n ->
  (forall a, In a ws -> a < n ->
     a ^ d mod n = 1 \/ exists i, 0 <= i < r /\ a ^ (2 ^ i * d) mod n = n - 1) ->
  returns (is_prime_witnesses ws n d r) true.
Proof.
  intros Hd Hr Hn. induction ws as [| a ws IH]; intros Hws; simpl;
    [apply returns_ret |].
  assert (IH' : returns (is_prime_witnesses ws n d r) true)
    by (apply IH; intros; apply Hws; [right |]; assumption).
  destruct (a >=? n) eqn:Han; [exact IH' |].
  rewrite Z.geb_leb in Han. apply Z.leb_gt in Han.
  eapply returns_bind; [apply mod_pow_returns; lia |].
  destruct ((a ^ d mod n =? 1) || (a ^ d mod n =? n - 1)) eqn:E; [exact IH' |].
  apply orb_false_elim in E. destruct E as [E1 E2].
  apply Z.eqb_neq in E1, E2.
  assert (Hsq : returns (is_prime_squarings (Z.to_nat (r - 1)) (a ^ d mod n) n)
                  false).
  { destruct (Hws a (or_introl eq_refl) Han) as [H1 | (i & Hi & Hpow)];
      [contradiction |].
    assert (i <> 0).
    { intros ->. rewrite Z.pow_0_r, Z.mul_1_l in Hpow. contradiction. }
    apply (is_prime_squarings_pass _ _ _ i); [lia | lia |].
    rewrite Z.mod_pow_l, <- Z.pow_mul_r, Z.mul_comm
      by (try apply Z.pow_nonneg; lia).
    exact Hpow. }
  eapply returns_bind; [exact Hsq | exact IH'].
Qed.

Lemma is_prime_passes (n : Z) :
  9 <= n -> n mod 2 = 1 ->
  (forall a, In a WITNESSES -> a < n -> strong_probable_prime n a) ->
  returns (is_prime n) true.
Proof.
  intros H9 Hodd Hall. unfold is_prime.
  destruct (n <? 2) eqn:H2; [apply Z.ltb_lt in H2; lia |].
  destruct (existsb (Z.eqb n) _); [apply returns_ret |].
  replace (n mod 2 =? 0) with false by (symmetry; apply Z.eqb_neq; lia).
  destruct (is_prime_decompose_returns (n - 1) ltac:(lia))
    as (d & r & Hret & Hd & Hr & Heq & Hdodd).
  eapply returns_bind; [exact Hret |].
  assert (Hr1 : 1 <= r).
  { destruct (Z.eq_dec r 0) as [-> | Hr0]; [| lia].
    exfalso. rewrite Z.pow_0_r in Heq.
    pose proof (Z.div_mod n 2 ltac:(lia)). pose proof (Z.div_mod d 2 ltac:(lia)).
    lia. }
  apply is_prime_witnesses_pass; try lia.
  intros a Ha Han.
  destruct (Hall a Ha Han) as (d' & r' & Hd' & Hodd' & Hr' & Heq' & Hpass).
  destruct (decompose_unique r r' d d' Hr Hr' Hdodd Hodd' ltac:(lia)) as [-> ->].
  exact Hpass.
Qed.

(** An accepted [n] passes Fermat's test to every witness below it. *)
Lemma strong_probable_prime_fermat (n a : Z) :
  2 <= n -> strong_probable_prime n a -> a ^ (n - 1) mod n = 1.
Proof.
  intros Hn (d & r & Hd & Hodd & Hr & Heq & Hpass). rewrite Heq.
  destruct Hpass as [H1 | (i & Hi & Hm1)].
  - rewrite Z.mul_comm, Z.pow_mul_r by (try apply Z.pow_nonneg; lia).
    rewrite <- Z.mod_pow_l, H1, Z.pow_1_l by (apply Z.pow_nonneg; lia).
    apply Z.mod_1_l. lia.
  - replace (2 ^ r * d) with (2 ^ i * d * (2 * 2 ^ (r - i - 1))).
    + assert (0 <= 2 ^ i * d)
        by (apply Z.mul_nonneg_nonneg; [apply Z.pow_nonneg |]; lia).
      assert (0 <= 2 ^ (r - i - 1)) by (apply Z.pow_nonneg; lia).
      rewrite Z.pow_mul_r by lia.
      rewrite <- Z.mod_pow_l, Hm1, Z.pow_mul_r by lia.
      rewrite <- Z.mod_pow_l.
      replace ((n - 1) ^ 2 mod n) with 1.
      * rewrite Z.pow_1_l by assumption. apply Z.mod_1_l. lia.
      * replace ((n - 1) ^ 2) with (1 + (n - 2) * n) by ring.
        rewrite Z.mod_add by lia. symmetry. apply Z.mod_1_l. lia.
    + replace r with (i + (1 + (r - i - 1))) at 2 by lia.
      rewrite !Z.pow_add_r, Z.pow_1_r by lia. ring.
Qed.

Lemma is_prime_multiple (n a : Z) :
  returns (is_prime n) true -> In a WITNESSES -> (a | n) -> n = a.
Proof.
  intros Hret Ha Hdiv. destruct (is_prime_true n Hret) as [Hn | (H9 & Hodd & Hall)].
  - simpl in Hn, Ha. destruct Hdiv as [q Hq].
    repeat (destruct Hn as [<- | Hn];
            [repeat (destruct Ha as [<- | Ha]; [lia |]); contradiction |]).
    contradiction.
  - assert (Ha2 : 2 <= a).
    { simpl in Ha. repeat (destruct Ha as [<- | Ha]; [lia |]). contradiction. }
    destruct (Z_lt_ge_dec a n) as [Han | Han].
    + exfalso.
      pose proof (strong_probable_prime_fermat n a ltac:(lia) (Hall a Ha Han)) as Hf.
      assert (Hapow : (a | a ^ (n - 1))).
      { replace (n - 1) with (1 + (n - 2)) by lia.
        rewrite Z.pow_add_r, Z.pow_1_r by lia. apply Z.divide_factor_l. }
      assert (H1 : (a | 1)).
      { rewrite <- Hf. rewrite Z.mod_eq by lia.
        apply Z.divide_sub_r; [exact Hapow |].
        apply Z.divide_mul_l. exact Hdiv. }
      apply Z.divide_1_r_nonneg in H1; lia.
    + destruct Hdiv as [q Hq].
      destruct (Z.lt_trichotomy q 1) as [Hlt | [-> | Hgt]]; [| lia |].
      * pose proof (Z.mul_le_mono_nonneg_r q 0 a ltac:(lia) ltac:(lia)). lia.
      * pose proof (Z.mul_le_mono_nonneg_r 2 q a ltac:(lia) ltac:(lia)). lia.
Qed.

(** Every [d] from [2] to [40] has one of the twelve witnesses as a factor. *)
Lemma small_witness_factor (d : Z) :
  2 <= d < 41 -> exists a, In a WITNESSES /\ (a | d).
Proof.
  intros Hd.
  assert (Hall : forallb (fun d => existsb (fun a => d mod a =? 0) WITNESSES)
                   (range 2 41) = true) by (vm_compute; reflexivity).
  rewrite forallb_forall in Hall. specialize (Hall d (In_range 2 41 d Hd)).
  apply existsb_exists in Hall. destruct Hall as (a & Ha & Hmod).
  exists a. split; [exact Ha |]. apply Z.eqb_eq in Hmod.
  apply Z.mod_divide; [| exact Hmod].
  simpl in Ha. repeat (destruct Ha as [<- | Ha]; [lia |]). contradiction.
Qed.

Lemma is_prime_true_below_1681 (n : Z) :
  n < 1681 -> returns (is_prime n) true -> Z.prime n.
Proof.
  intros Hn Hret. apply trial_division_prime. unfold trial_division.
  assert (H2 : 2 <= n).
  { destruct (is_prime_true n Hret) as [Hin | [H9 _]]; [| lia].
    simpl in Hin. repeat (destruct Hin as [<- | Hin]; [lia |]). contradiction. }
  apply andb_true_intro. split; [apply Z.ltb_lt; lia |].
  apply forallb_forall. intros d Hd. apply range_In in Hd.
  pose proof (Z.sqrt_spec n ltac:(lia)) as Hs. unfold Z.succ in Hs.
  pose proof (Z.sqrt_nonneg n) as Hs0. set (s := Z.sqrt n) in *.
  apply negb_true_iff. apply Z.eqb_neq. intros Hmod.
  assert (Hdn : (d | n)) by (apply Z.mod_divide; [lia | exact Hmod]).
  assert (Hs41 : s < 41).
  { apply Z.nle_gt. intros Hge.
    pose proof (Z.mul_le_mono_nonneg 41 s 41 s
                  ltac:(lia) Hge ltac:(lia) Hge). lia. }
  destruct (small_witness_factor d ltac:(lia)) as (a & Ha & Had).
  pose proof (is_prime_multiple n a Hret Ha (Z.divide_trans _ _ _ Had Hdn)) as Hna.
  pose proof (Z.divide_pos_le a d ltac:(lia) Had) as Hle.
  pose proof (Z.mul_le_mono_nonneg d s d s
                ltac:(lia) ltac:(lia) ltac:(lia) ltac:(lia)).
  pose proof (Z.mul_le_mono_nonneg_l 2 d d ltac:(lia) ltac:(lia)). lia.
Qed.

Lemma prime_1000003 : Z.prime 1000003.
Proof. apply trial_division_prime. vm_compute. reflexivity. Qed.

(** X4: [is_prime] has no false negative, whatever the size of [n]: it
    returns [True] for every prime [n]. *)
Theorem is_prime_accepts_primes (n : Z) :
  Z.prime n -> returns (is_prime n) true.
Proof. intros Hp. apply is_prime_prime. exact Hp. Qed.

Lemma is_prime_accepts_primes_witness : returns (is_prime 1000003) true.
Proof. apply (is_prime_accepts_primes 1000003). exact prime_1000003. Defined.

(** X5: [is_prime n] returns [True] exactly when [n] is one of the twelve
    small primes of line 38 or [n] is odd, at least [9] and a strong probable
    prime to every witness below it: the function is the twelve-base
    Miller-Rabin test and nothing else. *)
Theorem is_prime_true_iff (n : Z) :
  returns (is_prime n) true <->
  In n WITNESSES \/
  (9 <= n /\ n mod 2 = 1 /\
   forall a, In a WITNESSES -> a < n -> strong_probable_prime n a).
Proof.
  split; [apply is_prime_true |].
  intros [Hin | (H9 & Hodd & Hall)].
  - apply (returns_run _ 0%nat); [apply is_prime_mono |].
    rewrite is_prime_small_prime by exact Hin. reflexivity.
  - apply is_prime_passes; assumption.
Qed.

(** X6: [is_prime] rejects every proper multiple of one of the twelve
    witness primes: if [a] is a witness, [a] divides [n] and [n <> a], the
    answer is [False]. *)
Theorem is_prime_rejects_multiples (n a : Z) :
  In a WITNESSES -> (a | n) -> n <> a -> returns (is_prime n) false.
Proof.
  intros Ha Hdiv Hne. destruct (is_prime_returns n) as [[|] Hret]; [| exact Hret].
  destruct (Hne (is_prime_multiple n a Hret Ha Hdiv)).
Qed.

Lemma is_prime_rejects_multiples_witness : returns (is_prime 1000005) false.
Proof.
  apply (is_prime_rejects_multiples 1000005 3).
  - simpl. tauto.
  - exists 333335. reflexivity.
  - lia.
Defined.

(** X7: below [41^2 = 1681] the answer of [is_prime] is exact: [True] if and
    only if [n] is prime (a composite that small has a prime factor among the
    twelve witnesses). *)
Theorem is_prime_exact_below_1681 (n : Z) :
  n < 1681 -> (returns (is_prime n) true <-> Z.prime n).
Proof.
  intros Hn. split; [apply is_prime_true_below_1681, Hn | apply is_prime_prime].
Qed.

Lemma is_prime_exact_below_1681_witness :
  returns (is_prime 1679) true <-> Z.prime 1679.
Proof. apply (is_prime_exact_below_1681 1679). lia. Defined.

(** ** Further properties of [count_digits] *)

(** X8: for [n > 0], [count_digits n] returns [c] exactly when
    [10^(c-1) <= n < 10^c] with [c >= 1]. *)
Theorem count_digits_spec (n c : Z) :
  0 < n ->
  (returns (count_digits n) c <-> 1 <= c /\ 10 ^ (c - 1) <= n < 10 ^ c).
Proof.
  intros Hn. split.
  - intros Hret. destruct (count_digits_returns n) as (c' & Hc' & _ & _ & Hpos).
    rewrite (returns_inj _ _ _ Hret Hc'). exact (Hpos Hn).
  - intros Hc. apply count_digits_eval; assumption.
Qed.

Lemma count_digits_spec_witness :
  returns (count_digits 999) 3 <-> 1 <= 3 /\ 10 ^ (3 - 1) <= 999 < 10 ^ 3.
Proof. apply (count_digits_spec 999 3). lia. Defined.

(** X9: [count_digits] is exact at the powers of ten: [10^k] has [k + 1]
    digits and [10^k - 1] has [k]. *)
Theorem count_digits_pow10 (k : Z) :
  0 <= k ->
  returns (count_digits (10 ^ k)) (k + 1) /\
  (1 <= k -> returns (count_digits (10 ^ k - 1)) k).
Proof.
  intros Hk. pose proof (Z.pow_pos_nonneg 10 k ltac:(lia) Hk) as Hpos.
  split.
  - apply count_digits_eval; [exact Hpos |]. unfold digits_of.
    replace (k + 1 - 1) with k by lia.
    rewrite Z.pow_add_r, Z.pow_1_r by lia. lia.
  - intros Hk1.
    assert (H10 : 10 * 10 ^ (k - 1) = 10 ^ k).
    { rewrite <- Z.pow_succ_r by lia. f_equal. lia. }
    pose proof (Z.pow_pos_nonneg 10 (k - 1) ltac:(lia) ltac:(lia)).
    apply count_digits_eval; [lia |]. unfold digits_of. lia.
Qed.

Lemma count_digits_pow10_witness :
  returns (count_digits (10 ^ 19)) (19 + 1) /\
  (1 <= 19 -> returns (count_digits (10 ^ 19 - 1)) 19).
Proof. apply (count_digits_pow10 19). lia. Defined.

(** X10: for a negative [n] the loop of [count_digits] is not entered and
    the answer is [0]. *)
Theorem count_digits_negative (n : Z) : n < 0 -> returns (count_digits n) 0.
Proof.
  intros Hn. destruct (count_digits_returns n) as (c & Hc & _ & Hneg & _).
  rewrite <- (Hneg Hn). exact Hc.
Qed.

Lemma count_digits_negative_witness : returns (count_digits (-90)) 0.
Proof. apply (count_digits_negative (-90)). lia. Defined.

(** ** Further properties of [analyze_number] *)

Lemma analyze_number_row (n : Z) (rows : list row) (r : row) :
  returns (analyze_number n) rows -> In r rows ->
  exists k, 1 <= k < len (str n) /\ split_row n k r.
Proof.
  intros Hret Hr. destruct (analyze_number_returns n) as (rows' & Hrows & Hret').
  rewrite (returns_inj _ _ _ Hret Hret') in Hr.
  destruct (Forall2_In_r _ _ _ Hrows r Hr) as (k & Hk & Hsplit).
  exists k. split; [apply range_In, Hk | exact Hsplit].
Qed.

Lemma analyze_number_1005_rows :
  returns (analyze_number 1005)
    [(1005, 1, 100, 5, 501, false, 3); (1005, 2, 10, 5, 51, false, 2);
     (1005, 3, 1, 5, 6, false, 1)].
Proof.
  apply (returns_run _ 10%nat); [apply analyze_number_mono | vm_compute; reflexivity].
Qed.

Lemma analyze_number_neg123_rows :
  returns (analyze_number (-123))
    [(-123, 1, -13, 7, -90, false, 0); (-123, 2, -2, 77, -153, false, 0);
     (-123, 3, -1, 877, -876, false, 0)].
Proof.
  apply (returns_run _ 10%nat); [apply analyze_number_mono | vm_compute; reflexivity].
Qed.

Lemma analyze_number_1013_rows :
  returns (analyze_number 1013)
    [(1013, 1, 101, 3, 304, false, 3); (1013, 2, 10, 13, 131, true, 3);
     (1013, 3, 1, 13, 14, false, 2)].
Proof.
  apply (returns_run _ 10%nat); [apply analyze_number_mono | vm_compute; reflexivity].
Qed.

Lemma analyze_number_100_rows :
  returns (analyze_number 100)
    [(100, 1, 10, 0, 1, false, 1); (100, 2, 1, 0, 1, false, 1)].
Proof.
  apply (returns_run _ 10%nat); [apply analyze_number_mono | vm_compute; reflexivity].
Qed.

Lemma prime_131 : Z.prime 131.
Proof. apply trial_division_prime. vm_compute. reflexivity. Qed.

(** X11: in every row of [analyze_number n] the first field is [n] and the
    last two are what [is_prime] and [count_digits] return on the row's own
    product. *)
Theorem analyze_number_fields (n : Z) (rows : list row) (r : row) :
  returns (analyze_number n) rows -> In r rows ->
  row_n r = n /\
  returns (is_prime (row_product r)) (row_is_prime r) /\
  returns (count_digits (row_product r)) (row_digits r).
Proof.
  intros Hret Hr.
  destruct (analyze_number_row n rows r Hret Hr)
    as (k & _ & ip & dg & Hip & Hdg & ->).
  cbv beta iota delta [row_n row_product row_is_prime row_digits]. auto.
Qed.

Lemma analyze_number_fields_witness :
  row_n (1005, 2, 10, 5, 51, false, 2) = 1005 /\
  returns (is_prime (row_product (1005, 2, 10, 5, 51, false, 2)))
    (row_is_prime (1005, 2, 10, 5, 51, false, 2)) /\
  returns (count_digits (row_product (1005, 2, 10, 5, 51, false, 2)))
    (row_digits (1005, 2, 10, 5, 51, false, 2)).
Proof.
  apply (analyze_number_fields 1005 _ (1005, 2, 10, 5, 51, false, 2)
           analyze_number_1005_rows).
  simpl. auto.
Defined.

(** X12: for every integer [n], negative ones included, each row has
    [a * 10^k + b = n] with [0 <= b < 10^k]; for [n < 0] the prefix [a] is
    negative. *)
Theorem analyze_number_divmod (n : Z) (rows : list row) (r : row) :
  returns (analyze_number n) rows -> In r rows ->
  row_a r * 10 ^ row_k r + row_b r = n /\
  0 <= row_b r < 10 ^ row_k r /\
  (n < 0 -> row_a r <= -1).
Proof.
  intros Hret Hr.
  destruct (analyze_number_row n rows r Hret Hr)
    as (k & Hk & ip & dg & _ & _ & ->).
  cbv beta iota delta [row_a row_b row_k].
  assert (H10 : 0 < 10 ^ k) by (apply Z.pow_pos_nonneg; lia).
  pose proof (Z.div_mod n (10 ^ k) ltac:(lia)) as Hdm.
  pose proof (Z.mod_pos_bound n (10 ^ k) H10) as Hb.
  split; [lia |]. split; [exact Hb |].
  intros Hn. pose proof (Z.div_lt_upper_bound n (10 ^ k) 0 H10 ltac:(lia)). lia.
Qed.

Lemma analyze_number_divmod_witness :
  row_a (-123, 1, -13, 7, -90, false, 0)
  * 10 ^ row_k (-123, 1, -13, 7, -90, false, 0)
  + row_b (-123, 1, -13, 7, -90, false, 0) = -123 /\
  0 <= row_b (-123, 1, -13, 7, -90, false, 0)
    < 10 ^ row_k (-123, 1, -13, 7, -90, false, 0) /\
  (-123 < 0 -> row_a (-123, 1, -13, 7, -90, false, 0) <= -1).
Proof.
  apply (analyze_number_divmod (-123) _ (-123, 1, -13, 7, -90, false, 0)
           analyze_number_neg123_rows).
  simpl. auto.
Defined.

(** X13: for [n >= 0] the product of a row never exceeds [n], and its
    digit count never exceeds that of [n]. *)
Theorem analyze_number_product_le (n dc : Z) (rows : list row) (r : row) :
  0 <= n -> returns (count_digits n) dc ->
  returns (analyze_number n) rows -> In r rows ->
  row_product r <= n /\ row_digits r <= dc.
Proof.
  intros Hn Hdc Hret Hr.
  destruct (analyze_number_row n rows r Hret Hr)
    as (k & Hk & ip & dg & _ & Hdg & ->).
  cbv beta iota delta [row_product row_digits].
  pose proof (split_pos_le n k Hn Hk) as Hle.
  pose proof (split_arith n k Hn ltac:(lia) Hle) as (_ & _ & _ & Hp).
  split; [lia |].
  destruct (count_digits_returns (n / 10 ^ k * (n mod 10 ^ k) + 1))
    as (c & Hc & _ & _ & Hpos).
  rewrite <- (returns_inj _ _ _ Hc Hdg).
  destruct (Hpos ltac:(lia)) as (Hc1 & Hlo & _).
  destruct (count_digits_returns n) as (c' & Hc' & _ & _ & Hpos').
  rewrite <- (returns_inj _ _ _ Hc' Hdc).
  assert (H10 : 0 < 10 ^ k) by (apply Z.pow_pos_nonneg; lia).
  destruct (Hpos' ltac:(lia)) as (_ & _ & Hhi).
  apply Z.nlt_ge. intros Hlt.
  pose proof (Z.pow_le_mono_r 10 c' (c - 1) ltac:(lia) ltac:(lia)). lia.
Qed.

Lemma analyze_number_product_le_witness :
  row_product (1005, 1, 100, 5, 501, false, 3) <= 1005 /\
  row_digits (1005, 1, 100, 5, 501, false, 3) <= 4.
Proof.
  eapply (analyze_number_product_le 1005 4 _ (1005, 1, 100, 5, 501, false, 3)).
  - lia.
  - apply (returns_run _ 10%nat); [apply count_digits_mono | vm_compute; reflexivity].
  - exact analyze_number_1005_rows.
  - simpl. auto.
Defined.



(** X15: a row whose product is prime is never reported as not prime. *)
Theorem analyze_number_prime_product (n : Z) (rows : list row) (r : row) :
  returns (analyze_number n) rows -> In r rows ->
  Z.prime (row_product r) -> row_is_prime r = true.
Proof.
  intros Hret Hr Hp.
  destruct (analyze_number_row n rows r Hret Hr)
    as (k & _ & ip & dg & Hip & _ & ->).
  cbv beta iota delta [row_product row_is_prime] in *.
  exact (returns_inj _ _ _ Hip (is_prime_prime _ Hp)).
Qed.

Lemma analyze_number_prime_product_witness :
  row_is_prime (1013, 2, 10, 13, 131, true, 3) = true.
Proof.
  apply (analyze_number_prime_product 1013 _ (1013, 2, 10, 13, 131, true, 3)
           analyze_number_1013_rows).
  - simpl. auto.
  - exact prime_131.
Defined.

(** X16: a row whose suffix [b] is [0] has product [1], is reported as not
    prime and has [1] digit: a split before trailing zeros never gives a
    prime. *)
Theorem analyze_number_zero_suffix (n : Z) (rows : list row) (r : row) :
  returns (analyze_number n) rows -> In r rows -> row_b r = 0 ->
  row_product r = 1 /\ row_is_prime r = false /\ row_digits r = 1.
Proof.
  intros Hret Hr Hb.
  destruct (analyze_number_row n rows r Hret Hr)
    as (k & _ & ip & dg & Hip & Hdg & ->).
  cbv beta iota delta [row_b row_product row_is_prime row_digits] in *.
  rewrite Hb, Z.mul_0_r in Hip, Hdg. rewrite Hb, Z.mul_0_r.
  split; [reflexivity |]. split.
  - apply (returns_inj _ _ _ Hip).
    apply (returns_run _ 0%nat); [apply is_prime_mono | reflexivity].
  - apply (returns_inj _ _ _ Hdg).
    apply (returns_run _ 2%nat); [apply count_digits_mono | reflexivity].
Qed.

Lemma analyze_number_zero_suffix_witness :
  row_product (100, 1, 10, 0, 1, false, 1) = 1 /\
  row_is_prime (100, 1, 10, 0, 1, false, 1) = false /\
  row_digits (100, 1, 10, 0, 1, false, 1) = 1.
Proof.
  apply (analyze_number_zero_suffix 100 _ (100, 1, 10, 0, 1, false, 1)
           analyze_number_100_rows).
  - simpl. auto.
  - reflexivity.
Defined.

(** X20: for [n >= 0] the prefix [a] of the row at split position [k]
    keeps the leading digits of [n]: it has [count_digits n - k] digits; the
    suffix [b], whose leading zeros are dropped, has at most [k]. *)
Theorem analyze_number_prefix_digits (n dc : Z) (rows : list row) (r : row) :
  0 <= n -> returns (count_digits n) dc ->
  returns (analyze_number n) rows -> In r rows ->
  returns (count_digits (row_a r)) (dc - row_k r) /\
  exists c, returns (count_digits (row_b r)) c /\ c <= row_k r.
Proof.
  intros Hn Hdc Hret Hr.
  destruct (analyze_number_row n rows r Hret Hr)
    as (k & Hk & ip & dg & _ & _ & ->).
  cbv beta iota delta [row_a row_b row_k].
  pose proof (split_pos_le n k Hn Hk) as Hle.
  pose proof (split_arith n k Hn ltac:(lia) Hle) as (_ & Hb & Ha & _).
  assert (H10 : 0 < 10 ^ k) by (apply Z.pow_pos_nonneg; lia).
  destruct (count_digits_returns n) as (c' & Hc' & _ & _ & Hpos).
  rewrite (returns_inj _ _ _ Hdc Hc') in *. clear Hdc.
  destruct (Hpos ltac:(lia)) as (Hc1 & Hlo & Hhi).
  rewrite (len_str_count_digits n c' Hn Hc') in Hk.
  split.
  - apply count_digits_eval; [lia |]. unfold digits_of.
    split; [lia |]. split.
    + apply Z.div_le_lower_bound; [exact H10 |].
      rewrite <- Z.pow_add_r by lia.
      replace (k + (c' - k - 1)) with (c' - 1) by lia. exact Hlo.
    + apply Z.div_lt_upper_bound; [exact H10 |].
      rewrite <- Z.pow_add_r by lia.
      replace (k + (c' - k)) with c' by lia. exact Hhi.
  - destruct (count_digits_returns (n mod 10 ^ k)) as (c & Hc & H0 & _ & Hbpos).
    exists c. split; [exact Hc |].
    destruct (Z.eq_dec (n mod 10 ^ k) 0) as [Hz | Hnz]; [rewrite (H0 Hz); lia |].
    destruct (Hbpos ltac:(lia)) as (_ & Hblo & _).
    apply Z.nlt_ge. intros Hlt.
    pose proof (Z.pow_le_mono_r 10 k (c - 1) ltac:(lia) ltac:(lia)). lia.
Qed.

Lemma analyze_number_prefix_digits_witness :
  returns (count_digits (row_a (1005, 2, 10, 5, 51, false, 2)))
    (4 - row_k (1005, 2, 10, 5, 51, false, 2)) /\
  exists c, returns (count_digits (row_b (1005, 2, 10, 5, 51, false, 2))) c /\
            c <= row_k (1005, 2, 10, 5, 51, false, 2).
Proof.
  eapply (analyze_number_prefix_digits 1005 4 _ (1005, 2, 10, 5, 51, false, 2)).
  - lia.
  - apply (returns_run _ 10%nat); [apply count_digits_mono | vm_compute; reflexivity].
  - exact analyze_number_1005_rows.
  - simpl. auto.
Defined.

(** ** How long the loops run and how often [mod_pow] is called *)

(** A run that gives a value gives the value that is returned. *)
Lemma run_returns {A : Type} (c : M A) (f : nat) (v v' : A) :
  mono c -> out (c f) = Val v -> returns c v' -> v = v'.
Proof. intros Hm Hv Hr. exact (returns_inj c v v' (returns_run c f v Hm Hv) Hr). Qed.

Lemma mod_pow_loop_runs (m : Z) (k : nat) :
  m <> 0 ->
  forall result base exp (g f : nat),
    0 <= exp < 2 ^ Z.of_nat k -> (k < g)%nat ->
    exists s, out (while_iter (fun '(_, _, exp) => exp >? 0) (mod_pow_body m) g
                     (result, base, exp) f) = Val s.
Proof.
  intros Hm. induction k as [| k IH]; intros result base exp g f He Hg;
    (destruct g as [| g]; [lia |]); cbn [while_iter].
  - replace (exp >? 0) with false; [eexists; reflexivity |].
    symmetry. rewrite Z.gtb_ltb. apply Z.ltb_ge. simpl in He. lia.
  - destruct (exp >? 0) eqn:Hc; [| eexists; reflexivity].
    apply Z.gtb_lt in Hc.
    assert (Hhalf : 0 <= exp / 2 < 2 ^ Z.of_nat k).
    { split; [apply Z.div_pos; lia |].
      apply Z.div_lt_upper_bound; [lia |].
      rewrite <- Z.pow_succ_r by lia. rewrite <- Nat2Z.inj_succ. lia. }
    destruct (IH (if exp mod 2 =? 1 then (result * base) mod m else result)
                ((base * base) mod m) (exp / 2) g f Hhalf ltac:(lia)) as [s Hs].
    exists s. rewrite <- Hs. apply out_bind.
    unfold mod_pow_body, py_mod. rewrite shiftr_1.
    replace (m =? 0) with false by (symmetry; apply Z.eqb_neq; exact Hm).
    destruct (exp mod 2 =? 1); reflexivity.
Qed.

Lemma log2_bound (x : Z) : 0 <= x -> x < 2 ^ Z.of_nat (Datatypes.S (Z.to_nat (Z.log2 x))).
Proof.
  intros Hx. rewrite Nat2Z.inj_succ, Z2Nat.id by apply Z.log2_nonneg.
  destruct (Z.eq_dec x 0) as [-> | Hx0]; [reflexivity |].
  apply Z.log2_spec. lia.
Qed.

Lemma mod_pow_runs (base exp m : Z) (fuel : nat) :
  0 <= exp -> 1 <= m -> (Z.to_nat (Z.log2 exp) + 2 <= fuel)%nat ->
  out (mod_pow base exp m fuel) = Val (base ^ exp mod m).
Proof.
  intros He Hm Hf.
  assert (Hv : exists v, out (mod_pow base exp m fuel) = Val v).
  { unfold mod_pow. rewrite (out_bind _ _ fuel tt) by reflexivity.
    destruct (m =? 1) eqn:Hm1; [eexists; reflexivity |].
    rewrite (out_bind _ _ fuel (base mod m)).
    2:{ unfold py_mod. replace (m =? 0) with false; [reflexivity |].
        symmetry. apply Z.eqb_neq. lia. }
    destruct (mod_pow_loop_runs m (Datatypes.S (Z.to_nat (Z.log2 exp)))
                ltac:(lia) 1 (base mod m) exp fuel fuel
                (conj He (log2_bound exp He)) ltac:(lia)) as [[[r b] e] Hs].
    exists r. rewrite (out_bind _ _ fuel (r, b, e)) by exact Hs. reflexivity. }
  destruct Hv as [v Hv]. rewrite Hv. f_equal.
  exact (run_returns _ fuel _ _ (mod_pow_mono base exp m) Hv
           (mod_pow_returns base exp m He Hm)).
Qed.





(** X21: binary exponentiation takes logarithmically many steps: for
    [exp >= 0] and a modulus [>= 1] the loop of [mod_pow] is left, with
    [base ^ exp mod modulus], once it may test its condition
    [floor(log2 exp) + 2] times (one iteration per bit of [exp] and the last
    test). *)
Theorem mod_pow_iterations (base exp mod_ : Z) (fuel : nat) :
  0 <= exp -> 1 <= mod_ -> (Z.to_nat (Z.log2 exp) + 2 <= fuel)%nat ->
  out (mod_pow base exp mod_ fuel) = Val (base ^ exp mod mod_).
Proof. intros He Hm Hf. apply mod_pow_runs; assumption. Qed.

Lemma mod_pow_iterations_witness :
  out (mod_pow 3 (2 ^ 64 - 1) 1000 65%nat) = Val (3 ^ (2 ^ 64 - 1) mod 1000).
Proof.
  apply (mod_pow_iterations 3 (2 ^ 64 - 1) 1000 65%nat); [lia | lia |].
  vm_compute. lia.
Defined.



Lemma log_bind {A B : Type} (c : M A) (k : A -> M B) (f : nat) :
  log (bind c k f)
  = match out (c f) with
    | Val a => log (c f) ++ log (k a f)
    | _ => log (c f)
    end.
Proof. unfold bind. destruct (c f) as [[a | e |] l]; reflexivity. Qed.

Lemma calls_nothing {A : Type} (c : M A) (f : nat) :
  calls (fun _ => False) c -> log (c f) = [].
Proof.
  intros H. specialize (H f). destruct (log (c f)) as [| x l]; [reflexivity |].
  inversion H as [| ? ? Hx _]. contradiction.
Qed.

(** A run of [mod_pow] logs its own call and nothing else. *)
Lemma mod_pow_log (base exp m : Z) (f : nat) :
  log (mod_pow base exp m f) = [(base, exp, m)].
Proof.
  unfold mod_pow. rewrite log_bind. cbn [called out log].
  rewrite calls_nothing; [reflexivity |].
  destruct (m =? 1); [apply calls_ret |].
  apply calls_bind; [apply calls_py_mod | intros b].
  apply calls_bind.
  - apply calls_while. intros [[result base'] exp']. unfold mod_pow_body.
    apply calls_bind.
    + destruct (exp' mod 2 =? 1); [apply calls_py_mod | apply calls_ret].
    + intros r. apply calls_bind; [apply calls_py_mod | intros; apply calls_ret].
  - intros [[result base'] exp']. apply calls_ret.
Qed.

Lemma is_prime_witnesses_log (ws : list Z) (n d r : Z) (f : nat) :
  exists tried,
    log (is_prime_witnesses ws n d r f) = map (fun a => (a, d, n)) tried /\
    (List.length tried <= List.length ws)%nat /\
    Forall (fun a => In a ws /\ a < n) tried.
Proof.
  induction ws as [| a ws (tried & Hlog & Hlen & Hall)].
  - exists []. simpl. auto.
  - assert (Hweak : Forall (fun a0 => In a0 (a :: ws) /\ a0 < n) tried).
    { apply Forall_forall. intros x Hx. rewrite Forall_forall in Hall.
      destruct (Hall x Hx). split; [right |]; assumption. }
    simpl is_prime_witnesses. destruct (a >=? n) eqn:Han.
    { exists tried. split; [exact Hlog |]. split; [simpl; lia | exact Hweak]. }
    rewrite Z.geb_leb in Han. apply Z.leb_gt in Han.
    assert (Hone : exists tried1,
               [(a, d, n)] = map (fun a => (a, d, n)) tried1 /\
               (List.length tried1 <= List.length (a :: ws))%nat /\
               Forall (fun a0 => In a0 (a :: ws) /\ a0 < n) tried1).
    { exists [a]. split; [reflexivity |]. split; [simpl; lia |].
      constructor; [split; [left; reflexivity | exact Han] | constructor]. }
    assert (Hmore : exists tried1,
               (a, d, n) :: log (is_prime_witnesses ws n d r f)
               = map (fun a => (a, d, n)) tried1 /\
               (List.length tried1 <= List.length (a :: ws))%nat /\
               Forall (fun a0 => In a0 (a :: ws) /\ a0 < n) tried1).
    { exists (a :: tried). split; [simpl; rewrite Hlog; reflexivity |].
      split; [simpl; lia |].
      constructor; [split; [left; reflexivity | exact Han] | exact Hweak]. }
    rewrite log_bind, mod_pow_log.
    destruct (out (mod_pow a d n f)) as [x | e |]; try exact Hone.
    destruct ((x =? 1) || (x =? n - 1)); [exact Hmore |].
    rewrite log_bind.
    rewrite (calls_nothing (is_prime_squarings _ _ _) f)
      by apply is_prime_squarings_calls.
    destruct (out (is_prime_squarings (Z.to_nat (r - 1)) x n f)) as [[|] | e |];
      cbn [ret log app]; first [exact Hone | exact Hmore].
Qed.

(** X23: [is_prime n] calls [mod_pow] at most twelve times, and every call
    is [mod_pow a d n] with [a] one of the witnesses below [n] and [d] the odd
    part of [n - 1]. *)
Theorem is_prime_call_bound (n : Z) (fuel : nat) :
  (List.length (log (is_prime n fuel)) <= 12)%nat /\
  forall a d m, In (a, d, m) (log (is_prime n fuel)) ->
    In a WITNESSES /\ a < n /\ m = n /\ d mod 2 = 1 /\
    exists r, 0 <= r /\ n - 1 = 2 ^ r * d.
Proof.
  unfold is_prime.
  destruct (n <? 2) eqn:H2; [split; [simpl; lia | intros a d m []] |].
  destruct (existsb (Z.eqb n) _); [split; [simpl; lia | intros a d m []] |].
  destruct (n mod 2 =? 0); [split; [simpl; lia | intros a d m []] |].
  apply Z.ltb_ge in H2. rewrite log_bind.
  rewrite (calls_nothing (is_prime_decompose (n - 1)) fuel)
    by (apply calls_while; intros [d r]; apply calls_ret).
  destruct (out (is_prime_decompose (n - 1) fuel)) as [[d r] | e |] eqn:Hdec;
    try (split; [simpl; lia | intros a d m []]).
  destruct (is_prime_decompose_returns (n - 1) ltac:(lia))
    as (d' & r' & Hret & Hd' & Hr' & Heq & Hodd).
  assert (Hdr : (d, r) = (d', r')).
  { apply (run_returns (is_prime_decompose (n - 1)) fuel); [| exact Hdec | exact Hret].
    unfold is_prime_decompose. repeat mono_step. }
  injection Hdr as -> ->.
  destruct (is_prime_witnesses_log WITNESSES n d' r' fuel)
    as (tried & Hlog & Hlen & Hall).
  cbn [app]. rewrite Hlog, length_map. split; [exact Hlen |].
  intros a d m Hin. apply in_map_iff in Hin. destruct Hin as (a' & Heq' & Ha').
  injection Heq' as -> -> ->. rewrite Forall_forall in Hall.
  destruct (Hall a Ha') as [Hw Hlt].
  repeat split; try assumption. exists r'. auto.
Qed.

(** ** The processing loop of [main] *)

Lemma main_loop_returns (total_numbers : Z) (numbers : list Z) :
  total_numbers <> 0 ->
  forall all_results processed printed,
  exists rowss printed',
    Forall2 (fun n rows => returns (analyze_number n) rows) numbers rowss /\
    returns (for_in numbers (main_loop_body total_numbers)
               (all_results, processed, printed))
      (all_results ++ List.concat rowss,
       processed + Z.of_nat (List.length numbers), printed').
Proof.
  intros Ht. induction numbers as [| n numbers IH];
    intros all_results processed printed.
  - exists [], printed. split; [constructor |]. simpl.
    rewrite List.app_nil_r, Z.add_0_r. apply returns_ret.
  - destruct (analyze_number_returns n) as (rows & _ & Hrows).
    assert (Hbody : exists printed1,
               returns (main_loop_body total_numbers n
                          (all_results, processed, printed))
                 (all_results ++ rows, processed + 1, printed1)).
    { unfold main_loop_body.
      destruct (((processed + 1) mod 10 =? 0) || (processed + 1 =? total_numbers)).
      - eexists. eapply returns_bind; [exact Hrows |].
        eapply returns_bind; [apply returns_py_floordiv, Ht | apply returns_ret].
      - eexists. eapply returns_bind; [exact Hrows | apply returns_ret]. }
    destruct Hbody as [printed1 Hbody].
    destruct (IH (all_results ++ rows) (processed + 1) printed1)
      as (rowss & printed' & Hall & Hret).
    exists (rows :: rowss), printed'. split; [constructor; assumption |].
    simpl for_in. eapply returns_bind; [exact Hbody |].
    simpl List.concat. rewrite List.app_assoc.
    replace (processed + Z.of_nat (List.length (n :: numbers)))
      with (processed + 1 + Z.of_nat (List.length numbers))
      by (simpl List.length; lia).
    exact Hret.
Qed.

(** X17: for every list of numbers, the empty one included, the processing
    of [main] raises nothing (its percentage never divides by zero) and
    [all_results] is the concatenation, in the order of the input, of what
    [analyze_number] returns for each number. *)
Theorem main_process_returns (numbers : list Z) :
  exists rowss printed,
    Forall2 (fun n rows => returns (analyze_number n) rows) numbers rowss /\
    returns (main_process numbers) (List.concat rowss, printed).
Proof.
  unfold main_process. destruct numbers as [| n numbers].
  - exists []. eexists. split; [constructor |].
    eapply returns_bind; [apply returns_ret |]. apply returns_ret.
  - destruct (main_loop_returns (Z.of_nat (List.length (n :: numbers)))
                (n :: numbers) ltac:(simpl List.length; lia) [] 0
                [("📥 Cargados " ++ str (Z.of_nat (List.length (n :: numbers)))
                  ++ " números de found.txt" ++ LF)%string;
                 ("🚀 Procesando splits (0%)" ++ CR)%string])
      as (rowss & printed' & Hall & Hret).
    exists rowss. eexists. split; [exact Hall |].
    eapply returns_bind; [exact Hret |]. apply returns_ret.
Qed.

(** ** The CSV text *)

Lemma count_append (c : ascii) (s t : string) :
  count c (s ++ t) = (count c s + count c t)%nat.
Proof. induction s as [| x s IH]; simpl; [reflexivity | rewrite IH; lia]. Qed.

Lemma append_assoc (s t u : string) :
  ((s ++ t) ++ u = s ++ (t ++ u))%string.
Proof. induction s as [| x s IH]; simpl; [reflexivity | rewrite IH; reflexivity]. Qed.

Lemma append_inj_l (s t u : string) : (s ++ t = s ++ u)%string -> t = u.
Proof.
  induction s as [| x s IH]; simpl; intros H; [exact H |].
  injection H as H. exact (IH H).
Qed.

(** Two texts that agree up to and after their first [c] agree piecewise. *)
Lemma append_split (c : ascii) (s1 t1 s2 t2 : string) :
  count c s1 = 0%nat -> count c s2 = 0%nat ->
  (s1 ++ String c t1 = s2 ++ String c t2)%string -> s1 = s2 /\ t1 = t2.
Proof.
  revert s2. induction s1 as [| x s1 IH]; intros [| y s2] H1 H2 Heq;
    simpl in *.
  - injection Heq as Heq. auto.
  - injection Heq as Hc Heq. subst y. rewrite Ascii.eqb_refl in H2. discriminate.
  - injection Heq as Hc Heq. subst x. rewrite Ascii.eqb_refl in H1. discriminate.
  - injection Heq as Hxy Heq. subst y.
    destruct (Ascii.eqb x c); [discriminate |].
    destruct (IH s2 H1 H2 Heq) as [-> ->]. auto.
Qed.

(** The decimal string of an integer holds digits and [-] only. *)
Lemma count_string_of_uint (c : ascii) (d : Decimal.uint) :
  (forall x, In x (list_ascii_of_string "0123456789") -> Ascii.eqb x c = false) ->
  count c (DecimalString.NilEmpty.string_of_uint d) = 0%nat.
Proof.
  intros Hc. induction d; cbn [count DecimalString.NilEmpty.string_of_uint];
    try reflexivity; rewrite IHd, Hc by (simpl; tauto); reflexivity.
Qed.

Lemma count_str (c : ascii) (n : Z) :
  (forall x, In x (list_ascii_of_string "-0123456789") -> Ascii.eqb x c = false) ->
  count c (str n) = 0%nat.
Proof.
  intros Hc.
  assert (Hd : forall x, In x (list_ascii_of_string "0123456789") ->
                         Ascii.eqb x c = false)
    by (intros x Hx; apply Hc; right; exact Hx).
  assert (Hu : forall d, count c (DecimalString.NilZero.string_of_uint d) = 0%nat).
  { intros d. unfold DecimalString.NilZero.string_of_uint.
    destruct d; try apply (count_string_of_uint c _ Hd).
    cbn [count]. rewrite Hd by (simpl; tauto). reflexivity. }
  unfold str, DecimalString.NilZero.string_of_int.
  destruct (Z.to_int n); [apply Hu |].
  cbn [count]. rewrite Hu, Hc by (simpl; tauto). reflexivity.
Qed.

Lemma count_str_semicolon (n : Z) : count ";" (str n) = 0%nat.
Proof.
  apply count_str. intros x Hx. simpl in Hx.
  repeat (destruct Hx as [<- | Hx]; [reflexivity |]). contradiction.
Qed.

Lemma count_str_LF (n : Z) : count "010" (str n) = 0%nat.
Proof.
  apply count_str. intros x Hx. simpl in Hx.
  repeat (destruct Hx as [<- | Hx]; [reflexivity |]). contradiction.
Qed.

(** [str] loses nothing: the integer can be read back from its string. *)
Lemma str_inj (n n' : Z) : str n = str n' -> n = n'.
Proof.
  intros H. unfold str in H.
  assert (Hnn : forall z, Z.to_int z <> Decimal.Pos Decimal.Nil /\
                          Z.to_int z <> Decimal.Neg Decimal.Nil).
  { intros [| q | q]; simpl; split; try discriminate;
      intros Hq; injection Hq as Hq;
      exact (DecimalPos.Unsigned.to_uint_nonnil q Hq). }
  pose proof (DecimalString.NilZero.isi (Z.to_int n)
                (proj1 (Hnn n)) (proj2 (Hnn n))) as E.
  pose proof (DecimalString.NilZero.isi (Z.to_int n')
                (proj1 (Hnn n')) (proj2 (Hnn n'))) as E'.
  rewrite H, E' in E. injection E as E.
  rewrite <- (DecimalZ.of_to n), <- (DecimalZ.of_to n'), E. reflexivity.
Qed.

Lemma main_csv_unfold (all_results : list row) :
  main_csv all_results
  = (("Número;SplitPos;A;B;A×B+1;Primo?;Digitos" ++ LF)
     ++ main_csv_body all_results)%string.
Proof.
  unfold main_csv.
  generalize ("Número;SplitPos;A;B;A×B+1;Primo?;Digitos" ++ LF)%string as f.
  induction all_results as [| r rows IH]; intros f; simpl.
  - clear. induction f as [| x f IH]; simpl; [reflexivity | rewrite <- IH; reflexivity].
  - rewrite IH, append_assoc. reflexivity.
Qed.

Lemma main_csv_row_count (r : row) :
  count ";" (main_csv_row r) = 6%nat /\ count "010" (main_csv_row r) = 1%nat.
Proof.
  destruct r as [[[[[[n k] a] b] product] ip] digits]. unfold main_csv_row.
  rewrite !count_append, !count_str_semicolon, !count_str_LF.
  destruct ip; split; reflexivity.
Qed.

Lemma append_ends (s t u : string) :
  (exists l, t = l ++ u)%string -> (exists l, s ++ t = l ++ u)%string.
Proof.
  intros [l ->]. exists (s ++ l)%string. symmetry. apply append_assoc.
Qed.

(** A line is its text, free of line feeds, and one line feed. *)
Lemma main_csv_row_line (r : row) :
  exists l, main_csv_row r = (l ++ String "010" EmptyString)%string /\
            count "010" l = 0%nat.
Proof.
  assert (H : exists l, main_csv_row r = (l ++ String "010" EmptyString)%string).
  { destruct r as [[[[[[n k] a] b] product] ip] digits]. unfold main_csv_row.
    repeat apply append_ends. exists EmptyString. reflexivity. }
  destruct H as [l Hl]. exists l. split; [exact Hl |].
  pose proof (proj2 (main_csv_row_count r)) as Hc.
  rewrite Hl, count_append in Hc. simpl in Hc. lia.
Qed.

Lemma main_csv_row_inj (r r' : row) : main_csv_row r = main_csv_row r' -> r = r'.
Proof.
  destruct r as [[[[[[n k] a] b] product] ip] digits].
  destruct r' as [[[[[[n' k'] a'] b'] product'] ip'] digits'].
  unfold main_csv_row, LF. intros H.
  change (String ";" EmptyString ++ ?x)%string with (String ";" x) in H.
  cbn [String.append] in H.
  apply append_split in H; try apply count_str_semicolon. destruct H as [Hn H].
  apply append_split in H; try apply count_str_semicolon. destruct H as [Hk H].
  apply append_split in H; try apply count_str_semicolon. destruct H as [Ha H].
  apply append_split in H; try apply count_str_semicolon. destruct H as [Hb H].
  apply append_split in H; try apply count_str_semicolon. destruct H as [Hp H].
  assert (Hip : ip = ip' /\ str digits = str digits').
  { destruct ip, ip'; cbn [String.append] in H; try discriminate H;
      repeat (injection H as H);
      (apply append_split in H; [| apply count_str_LF | apply count_str_LF]);
      destruct H as [H _]; auto. }
  destruct Hip as [-> Hd].
  apply str_inj in Hn, Hk, Ha, Hb, Hp, Hd. subst. reflexivity.
Qed.

Lemma main_csv_body_inj (rows : list row) :
  forall rows', main_csv_body rows = main_csv_body rows' -> rows = rows'.
Proof.
  induction rows as [| r rows IH]; intros [| r' rows'] H; simpl in H.
  - reflexivity.
  - exfalso. destruct (main_csv_row_line r') as (l & Hl & _). rewrite Hl in H.
    destruct l; discriminate H.
  - exfalso. destruct (main_csv_row_line r) as (l & Hl & _). rewrite Hl in H.
    destruct l; discriminate H.
  - destruct (main_csv_row_line r) as (l & Hl & Hc).
    destruct (main_csv_row_line r') as (l' & Hl' & Hc').
    assert (Hsplit : l = l' /\ main_csv_body rows = main_csv_body rows').
    { apply (append_split "010"); [exact Hc | exact Hc' |].
      rewrite Hl, Hl', !append_assoc in H. exact H. }
    destruct Hsplit as [Hll Hbody].
    f_equal; [| exact (IH rows' Hbody)].
    apply main_csv_row_inj. rewrite Hl, Hl', Hll. reflexivity.
Qed.

(** X18: the CSV text has one line per row after its header, and every line,
    the header included, has seven fields: the text holds [1 + len(rows)] line
    feeds and six times as many semicolons. *)
Theorem main_csv_shape (all_results : list row) :
  count "010" (main_csv all_results) = Datatypes.S (List.length all_results) /\
  count ";" (main_csv all_results)
  = (6 * Datatypes.S (List.length all_results))%nat.
Proof.
  rewrite main_csv_unfold, !count_append.
  assert (Hbody : count "010" (main_csv_body all_results)
                  = List.length all_results /\
                  count ";" (main_csv_body all_results)
                  = (6 * List.length all_results)%nat).
  { induction all_results as [| r rows [IH1 IH2]]; [split; reflexivity |].
    destruct (main_csv_row_count r) as [H6 H1].
    simpl main_csv_body. rewrite !count_append, IH1, IH2, H6, H1.
    simpl List.length. lia. }
  destruct Hbody as [-> ->].
  change (count "010" "Número;SplitPos;A;B;A×B+1;Primo?;Digitos") with 0%nat.
  change (count ";" "Número;SplitPos;A;B;A×B+1;Primo?;Digitos") with 6%nat.
  change (count "010" LF) with 1%nat. change (count ";" LF) with 0%nat.
  lia.
Qed.

(** X19: the CSV text loses nothing: two lists of rows that give the same
    text are the same list, so every field of every row can be read back
    from the file. *)
Theorem main_csv_inj (all_results all_results' : list row) :
  main_csv all_results = main_csv all_results' -> all_results = all_results'.
Proof.
  rewrite !main_csv_unfold. intros H.
  apply append_inj_l in H. exact (main_csv_body_inj _ _ H).
Qed.

Lemma main_csv_inj_witness :
  main_csv [(100, 1, 10, 0, 1, false, 1)] = main_csv [(100, 1, 10, 0, 1, false, 1)] /\
  [(100, 1, 10, 0, 1, false, 1)] = [(100, 1, 10, 0, 1, false, 1)].
Proof.
  split; [reflexivity |].
  apply (main_csv_inj [(100, 1, 10, 0, 1, false, 1)] [(100, 1, 10, 0, 1, false, 1)]).
  reflexivity.
Defined.

Example main_csv_100 :
  main_csv [(100, 1, 10, 0, 1, false, 1); (11, 1, 1, 1, 2, true, 1)]
  = ("Número;SplitPos;A;B;A×B+1;Primo?;Digitos" ++ LF
     ++ "100;1;10;0;1;No;1" ++ LF ++ "11;1;1;1;2;Sí;1" ++ LF)%string.
Proof. reflexivity. Qed.

Example main_process_2 :
  out (main_process [100; 11] 10%nat)
  = Val ([(100, 1, 10, 0, 1, false, 1); (100, 2, 1, 0, 1, false, 1);
          (11, 1, 1, 1, 2, true, 1)],
         [("📥 Cargados 2 números de found.txt" ++ LF)%string;
          ("🚀 Procesando splits (0%)" ++ CR)%string;
          ("🚀 Procesando splits (100%) - 2/2 números" ++ CR)%string;
          ("🚀 Procesando splits (100%) - 2/2 números ✅" ++ LF)%string]).
Proof. vm_compute. reflexivity. Qed.
